(** * file-lang-map: the index builder and the resolver

    A shallow embedding of [scripts/generateJSONs.ts] (the index builder)
    and [src/index.ts] (the resolver), with the properties of the
    specification proved or refuted over it.

    Modelling conventions.
    - A JavaScript string is a [string], a sequence of code units below
      256 (the Latin-1 range of UTF-16); [toLowerCase] lowers the cased
      code units of that range, as the JavaScript method does.
    - The four generated JSON objects, and the objects the builder fills,
      are finite maps ([gmap string _]) holding their own properties.
      The definitions of the first part read and write own properties
      only: they are the program on names that are not members of
      [Object.prototype].  Module [Js] embeds the same functions with
      property reads and writes as JavaScript performs them (inherited
      members, the [__proto__] setter, the [TypeError] of calling a
      missing [push]); what depends on such names is stated over it.
    - [Object.entries(rawLanguages)] is the list of (name, definition)
      pairs the loop of the builder visits, in that order.
    - [null] and [undefined] are [None]; an array or an object is truthy,
      a string is truthy unless it is empty. *)

From Stdlib Require Import ZArith Ascii String.
From stdpp Require Import base option list strings gmap.

Local Open Scope Z_scope.

(** ** JavaScript string primitives *)

Module JsString.

(** [s.lastIndexOf(c)] for a one-character needle: the index of the last
    occurrence of [c], or [-1]. *)
Fixpoint lastIndexOf (s : string) (c : ascii) : Z :=
  match s with
  | EmptyString => -1
  | String a s' =>
      let r := lastIndexOf s' c in
      if 0 <=? r then r + 1
      else if Ascii.eqb a c then 0 else -1
  end.

Fixpoint drop (n : nat) (s : string) : string :=
  match n, s with
  | O, _ => s
  | S _, EmptyString => EmptyString
  | S n', String _ s' => drop n' s'
  end.

(** [s.slice(start)]: a negative [start] counts from the end, and the
    start is clamped to the string. *)
Definition slice (s : string) (start : Z) : string :=
  let len := Z.of_nat (String.length s) in
  let from := if start <? 0 then Z.max (len + start) 0 else Z.min start len in
  drop (Z.to_nat from) s.

(** The lowercase of a code unit: [A]..[Z] and the capital letters of
    the Latin-1 supplement (U+00C0..U+00DE without the sign U+00D7) have
    their lowercase 32 places up; nothing else in the range changes. *)
Definition lowerChar (c : ascii) : ascii :=
  let n := N_of_ascii c in
  if ((65 <=? n) && (n <=? 90)
      || (192 <=? n) && (n <=? 214)
      || (216 <=? n) && (n <=? 222))%N
  then ascii_of_N (n + 32) else c.

Fixpoint toLowerCase (s : string) : string :=
  match s with
  | EmptyString => EmptyString
  | String a s' => String (lowerChar a) (toLowerCase s')
  end.

(** Truthiness of a string: only the empty string is falsy. *)
Definition truthy (s : string) : bool :=
  match s with EmptyString => false | String _ _ => true end.

End JsString.

Import JsString.

(** ** The data model ([src/types.ts]) *)

(** [LanguageType] is a union of four string literals; the builder copies
    whatever string the source has, so a category is a [string] here. *)
Record Language := mkLanguage {
  name : string;
  type : string;
  extensions : list string;
  filenames : list string;
  group : option string;
}.

Abbreviation LanguagesMap := (gmap string Language).
Abbreviation LookUpMap := (gmap string (list string)).
Abbreviation TypeMap := (gmap string (list string)).

(** ** The resolver ([src/index.ts]) *)

Definition getBasename (fileName : string) : string :=
  let fwd := lastIndexOf fileName "/" in
  let back := lastIndexOf fileName "\" in
  let lastSlash := Z.max fwd back in
  if lastSlash =? -1 then fileName else slice fileName (lastSlash + 1).

Definition getExtension (fileName : string) (knownBaseName : option string) : string :=
  let base := default (getBasename fileName) knownBaseName in
  let lastDotIndex := lastIndexOf base "." in
  if lastDotIndex <=? 0 then EmptyString else slice base lastDotIndex.

Section Resolver.

Variable languagesData : LanguagesMap.
Variable extensionsData : LookUpMap.
Variable filenamesData : LookUpMap.
Variable typesData : TypeMap.

Definition getLanguage (languageName : string) : option Language :=
  let key := toLowerCase languageName in
  languagesData !! key.

Definition getLanguagesByType (type : string) : list string :=
  default [] (typesData !! type).

(** [typeFilter && lang.type !== typeFilter] *)
Definition mismatch (typeFilter : option string) (lang : Language) : bool :=
  match typeFilter with
  | None => false
  | Some f => truthy f && negb (String.eqb (type lang) f)
  end.

(** One turn of the [for] loop over [candidateKeys]. *)
Definition visit (typeFilter : option string)
    (results : list string) (key : string) : list string :=
  match languagesData !! key with
  | None => results
  | Some lang =>
      if mismatch typeFilter lang then results
      else results ++ [name lang]
  end.

Definition getLanguageByFileName (fileName : string)
    (typeFilter : option string) : option (list string) :=
  let base := getBasename fileName in
  let ext := getExtension fileName None in
  let candidateKeys :=
    match filenamesData !! base with
    | Some ks => ks
    | None =>
        if truthy ext then
          match extensionsData !! ext with
          | Some ks => ks
          | None => []
          end
        else []
    end in
  if (length candidateKeys =? 0)%nat then None
  else
    let results := foldl (visit typeFilter) [] candidateKeys in
    if (0 <? length results)%nat then Some results else None.

End Resolver.


(** ** The index builder ([scripts/generateJSONs.ts]) *)

Module LinguistDef.
Record t := mk {
  type : string;
  extensions : option (list string);
  filenames : option (list string);
  group : option string;
}.
End LinguistDef.

(** [Object.entries(rawLanguages)] *)
Abbreviation LinguistYaml := (list (string * LinguistDef.t)).

Record Generated := mkGenerated {
  languagesDB : LanguagesMap;
  extensionIndex : LookUpMap;
  filenameIndex : LookUpMap;
  typesDB : TypeMap;
}.

(** [if (!index[id]) index[id] = []; index[id].push(key);] *)
Definition push (index : LookUpMap) (id key : string) : LookUpMap :=
  match index !! id with
  | None => <[id := [key]]> index
  | Some ks => <[id := ks ++ [key]]> index
  end.

(** [if (ids) { for (const id of ids) { ... push ... } }] *)
Definition pushAll (index : LookUpMap) (ids : option (list string))
    (key : string) : LookUpMap :=
  match ids with
  | None => index
  | Some l => foldl (fun ix id => push ix id key) index l
  end.

(** The object stored at [languagesDB[key]]. *)
Definition record (originalName : string) (def : LinguistDef.t) : Language :=
  {| name := originalName;
     type := LinguistDef.type def;
     extensions := default [] (LinguistDef.extensions def);
     filenames := default [] (LinguistDef.filenames def);
     group := match LinguistDef.group def with
              | Some g => if truthy g then Some g else None
              | None => None
              end |}.

(** [if (def.type && typesDB[def.type]) typesDB[def.type].push(originalName)] *)
Definition pushType (types : TypeMap) (ty originalName : string) : TypeMap :=
  if truthy ty then
    match types !! ty with
    | Some names => <[ty := names ++ [originalName]]> types
    | None => types
    end
  else types.

(** The body of the loop over [Object.entries(rawLanguages)]. *)
Definition step (g : Generated) (entry : string * LinguistDef.t) : Generated :=
  let '(originalName, def) := entry in
  let key := toLowerCase originalName in
  {| languagesDB := <[key := record originalName def]> (languagesDB g);
     extensionIndex := pushAll (extensionIndex g) (LinguistDef.extensions def) key;
     filenameIndex := pushAll (filenameIndex g) (LinguistDef.filenames def) key;
     typesDB := pushType (typesDB g) (LinguistDef.type def) originalName |}.

Definition initial : Generated :=
  {| languagesDB := ∅;
     extensionIndex := ∅;
     filenameIndex := ∅;
     typesDB := <["data" := []]> (<["programming" := []]>
                  (<["markup" := []]> (<["prose" := []]> ∅))) |}.

Definition generateJSONs (rawLanguages : LinguistYaml) : Generated :=
  foldl step initial rawLanguages.

(** ** The resolver reading the artifacts of a build *)

Definition lookupName (g : Generated) : string -> option Language :=
  getLanguage (languagesDB g).

Definition lookupType (g : Generated) : string -> list string :=
  getLanguagesByType (typesDB g).

Definition lookupFile (g : Generated)
    : string -> option string -> option (list string) :=
  getLanguageByFileName (languagesDB g) (extensionIndex g) (filenameIndex g).

(** ** The same code with JavaScript's property lookup *)

Module Js.

(** A member of [Object.prototype], as far as this code can observe it:
    a built-in function with its [name] and [length], or the prototype
    object itself, which is what reading [__proto__] gives.  None of
    them has a [type] or a [push], and none has indexed elements. *)
Inductive Member : Type :=
| Builtin (fname : string) (arity : nat)
| ObjectPrototype.

Definition objectPrototype : list (string * Member) :=
  [ ("constructor", Builtin "Object" 1);
    ("__defineGetter__", Builtin "__defineGetter__" 2);
    ("__defineSetter__", Builtin "__defineSetter__" 2);
    ("hasOwnProperty", Builtin "hasOwnProperty" 1);
    ("__lookupGetter__", Builtin "__lookupGetter__" 1);
    ("__lookupSetter__", Builtin "__lookupSetter__" 1);
    ("isPrototypeOf", Builtin "isPrototypeOf" 1);
    ("propertyIsEnumerable", Builtin "propertyIsEnumerable" 1);
    ("toString", Builtin "toString" 0);
    ("valueOf", Builtin "valueOf" 0);
    ("__proto__", ObjectPrototype);
    ("toLocaleString", Builtin "toLocaleString" 0) ]%string.

Fixpoint lookupMember (k : string) (members : list (string * Member))
    : option Member :=
  match members with
  | [] => None
  | (k', m) :: rest => if String.eqb k k' then Some m else lookupMember k rest
  end.

Definition inherited (k : string) : option Member :=
  lookupMember k objectPrototype.

(** What a property read finds: an own property or an inherited member
    ([None] is [undefined]). *)
Inductive Value (A : Type) : Type :=
| Own (a : A)
| Inherited (m : Member).

Arguments Own {A} a.
Arguments Inherited {A} m.

(** [obj[k]] on a plain object whose own properties are [obj]. *)
Definition get {A : Type} (obj : gmap string A) (k : string) : option (Value A) :=
  match obj !! k with
  | Some a => Some (Own a)
  | None => Inherited <$> inherited k
  end.

(** [lang.type], [lang.name], [candidateKeys.length] and
    [candidateKeys[i]] on what a read found; [None] is [undefined]. *)
Definition typeOf (lang : Value Language) : option string :=
  match lang with
  | Own r => Some (type r)
  | Inherited _ => None
  end.

Definition nameOf (lang : Value Language) : option string :=
  match lang with
  | Own r => Some (name r)
  | Inherited (Builtin fname _) => Some fname
  | Inherited ObjectPrototype => None
  end.

Definition lengthOf (candidateKeys : Value (list string)) : option nat :=
  match candidateKeys with
  | Own ks => Some (length ks)
  | Inherited (Builtin _ arity) => Some arity
  | Inherited ObjectPrototype => None
  end.

Definition element (candidateKeys : Value (list string)) (i : nat)
    : option string :=
  match candidateKeys with
  | Own ks => ks !! i
  | Inherited _ => None
  end.

(** The property name a value used as a key stands for. *)
Definition propertyKey (key : option string) : string :=
  default "undefined"%string key.

Section Resolver.

Variable languagesData : LanguagesMap.
Variable extensionsData : LookUpMap.
Variable filenamesData : LookUpMap.
Variable typesData : TypeMap.

(** [languagesData[key] || null]; [None] is [null]. *)
Definition getLanguage (languageName : string) : option (Value Language) :=
  let key := toLowerCase languageName in
  get languagesData key.

(** [typesData[type] || []] *)
Definition getLanguagesByType (type : string) : Value (list string) :=
  default (Own []) (get typesData type).

(** [typeFilter && lang.type !== typeFilter] *)
Definition mismatch (typeFilter : option string) (lang : Value Language) : bool :=
  match typeFilter with
  | None => false
  | Some f =>
      truthy f
      && negb match typeOf lang with
              | Some t => String.eqb t f
              | None => false
              end
  end.

(** One turn of the [for] loop, at index [i]. *)
Definition visit (typeFilter : option string)
    (candidateKeys : Value (list string))
    (results : list (option string)) (i : nat) : list (option string) :=
  let key := propertyKey (element candidateKeys i) in
  match get languagesData key with
  | None => results
  | Some lang =>
      if mismatch typeFilter lang then results
      else results ++ [nameOf lang]
  end.

(** The names returned are JavaScript values: [None] among them is
    [undefined].  A [length] that is [undefined] is not [0] and bounds no
    turn of the loop. *)
Definition getLanguageByFileName (fileName : string)
    (typeFilter : option string) : option (list (option string)) :=
  let base := getBasename fileName in
  let ext := getExtension fileName None in
  let candidateKeys :=
    match get filenamesData base with
    | Some found => found
    | None =>
        if truthy ext then
          match get extensionsData ext with
          | Some found => found
          | None => Own []
          end
        else Own []
    end in
  match lengthOf candidateKeys with
  | Some O => None
  | bound =>
      let results :=
        foldl (visit typeFilter candidateKeys) [] (seq 0 (default O bound)) in
      if (0 <? length results)%nat then Some results else None
  end.

End Resolver.

(** [languagesDB[key] = value]: the name [__proto__] runs the setter of
    [Object.prototype], which replaces the prototype of the object and
    gives it no property; every other name becomes an own property. *)
Definition assign (languages : LanguagesMap) (key : string) (value : Language)
    : LanguagesMap :=
  if String.eqb key "__proto__" then languages else <[key := value]> languages.

(** [if (!index[id]) index[id] = []; index[id].push(key);] where [None]
    is the [TypeError] of calling the [push] an inherited member lacks. *)
Definition push (index : LookUpMap) (id key : string) : option LookUpMap :=
  match get index id with
  | None => Some (<[id := [key]]> index)
  | Some (Own ks) => Some (<[id := ks ++ [key]]> index)
  | Some (Inherited _) => None
  end.

Definition pushAll (index : LookUpMap) (ids : option (list string))
    (key : string) : option LookUpMap :=
  match ids with
  | None => Some index
  | Some l => foldl (fun acc id => ix ← acc; push ix id key) (Some index) l
  end.

(** [if (def.type && typesDB[def.type]) typesDB[def.type].push(originalName)] *)
Definition pushType (types : TypeMap) (ty originalName : string) : option TypeMap :=
  if truthy ty then
    match get types ty with
    | None => Some types
    | Some (Own names) => Some (<[ty := names ++ [originalName]]> types)
    | Some (Inherited _) => None
    end
  else Some types.

(** The body of the loop; [None] when it throws. *)
Definition step (g : Generated) (entry : string * LinguistDef.t)
    : option Generated :=
  let '(originalName, def) := entry in
  let key := toLowerCase originalName in
  let languages := assign (languagesDB g) key (record originalName def) in
  extensions ← pushAll (extensionIndex g) (LinguistDef.extensions def) key;
  filenames ← pushAll (filenameIndex g) (LinguistDef.filenames def) key;
  types ← pushType (typesDB g) (LinguistDef.type def) originalName;
  Some {| languagesDB := languages;
          extensionIndex := extensions;
          filenameIndex := filenames;
          typesDB := types |}.

(** The four objects handed to [writeJson], or [None] when the loop
    throws and nothing is written. *)
Definition generateJSONs (rawLanguages : LinguistYaml) : option Generated :=
  foldl (fun acc entry => g ← acc; step g entry) (Some initial) rawLanguages.

(** The resolver reading the artifacts of a build. *)
Definition lookupName (g : Generated) : string -> option (Value Language) :=
  getLanguage (languagesDB g).

Definition lookupType (g : Generated) : string -> Value (list string) :=
  getLanguagesByType (typesDB g).

Definition lookupFile (g : Generated)
    : string -> option string -> option (list (option string)) :=
  getLanguageByFileName (languagesDB g) (extensionIndex g) (filenameIndex g).

End Js.

(** ** Auxiliary views of the lookup by file name *)

(** The candidate keys [getLanguageByFileName] settles on. *)
Definition candidateKeys (extensionsData filenamesData : LookUpMap)
    (fileName : string) : list string :=
  match filenamesData !! getBasename fileName with
  | Some ks => ks
  | None =>
      if truthy (getExtension fileName None) then
        default [] (extensionsData !! getExtension fileName None)
      else []
  end.

(** What [getLanguageByFileName] does once the candidate keys are chosen. *)
Definition resolve (languagesData : LanguagesMap) (typeFilter : option string)
    (keys : list string) : option (list string) :=
  if (length keys =? 0)%nat then None
  else
    let results := foldl (visit languagesData typeFilter) [] keys in
    if (0 <? length results)%nat then Some results else None.

(** The name a candidate key contributes, if any. *)
Definition survivor (languagesData : LanguagesMap) (typeFilter : option string)
    (key : string) : option string :=
  match languagesData !! key with
  | None => None
  | Some lang => if mismatch typeFilter lang then None else Some (name lang)
  end.

(** ** The specification's wording, for comparison *)

Definition isSeparator (c : ascii) : bool :=
  Ascii.eqb c "/" || Ascii.eqb c "\".

Fixpoint hasSeparator (s : string) : bool :=
  match s with
  | EmptyString => false
  | String a s' => isSeparator a || hasSeparator s'
  end.

(** Step 1 of the specification: everything after the rightmost of the
    two separator characters, or the whole input when neither occurs. *)
Fixpoint afterLastSeparator (s : string) : string :=
  match s with
  | EmptyString => EmptyString
  | String a s' =>
      if hasSeparator s' then afterLastSeparator s'
      else if isSeparator a then s' else s
  end.


(** ** Views of the dataset *)

(** The key under which an entry of the dataset is stored. *)
Definition keyOf (entry : string * LinguistDef.t) : string :=
  toLowerCase entry.1.

(** The listings of the identifier [id] in an optional list. *)
Definition claims (id : string) (l : option (list string)) : list string :=
  filter (fun x => x = id) (default [] l).

(** The keys the loop appends to the entry [id] of a reverse index whose
    identifiers are read with [ids] ([LinguistDef.extensions] or
    [LinguistDef.filenames]): one per listing of [id], in dataset order. *)
Definition keysFor (ids : LinguistDef.t -> option (list string)) (id : string)
    (ds : LinguistYaml) : list string :=
  flat_map (fun entry => (fun _ => keyOf entry) <$> claims id (ids entry.2)) ds.

(** The display names of the languages that claim the extension [e], in
    dataset order (one per listing of [e]). *)
Definition claimants (e : string) (ds : LinguistYaml) : list string :=
  flat_map (fun entry =>
              (fun _ => entry.1) <$> claims e (LinguistDef.extensions entry.2)) ds.

(** The display names of the entries of category [c], in dataset order. *)
Definition namesOfType (c : string) (ds : LinguistYaml) : list string :=
  fst <$> filter (fun entry => LinguistDef.type entry.2 = c) ds.

Definition recognized (c : string) : bool :=
  bool_decide (c ∈ ["data"; "programming"; "markup"; "prose"]%string).

(** The entry of a reverse index at [id], empty when there is none. *)
Definition entryOf (ix : LookUpMap) (id : string) : list string :=
  default [] (ix !! id).

(** Every key stored in a reverse index is a key of the record store. *)
Definition keyed (languages : LanguagesMap) (ix : LookUpMap) : Prop :=
  forall id ks, ix !! id = Some ks ->
    Forall (fun k => is_Some (languages !! k)) ks.

Definition consistent (g : Generated) : Prop :=
  keyed (languagesDB g) (extensionIndex g)
  /\ keyed (languagesDB g) (filenameIndex g).

(** ** Datasets to compute with *)

Definition rust : LinguistDef.t :=
  LinguistDef.mk "programming" (Some [".rs"; ".rs.in"]) None None.

Definition renderscript : LinguistDef.t :=
  LinguistDef.mk "programming" (Some [".rs"; ".rsh"]) None None.

Definition xml : LinguistDef.t :=
  LinguistDef.mk "data" (Some [".xml"; ".rs"; ".ts"])
    (Some [".classpath"; "Web.config"]) None.

Definition dockerfile : LinguistDef.t :=
  LinguistDef.mk "programming" (Some [".dockerfile"; ".containerfile"])
    (Some ["Containerfile"; "Dockerfile"]) None.

Definition ignore : LinguistDef.t :=
  LinguistDef.mk "data" (Some [".gitignore"]) (Some [".gitignore"; ".npmignore"]) None.

Definition tsx : LinguistDef.t :=
  LinguistDef.mk "programming" (Some [".tsx"]) None (Some "TypeScript"%string).

Definition cmake : LinguistDef.t :=
  LinguistDef.mk "programming" (Some [".cmake"; ".cmake.in"])
    (Some ["CMakeLists.txt"]) None.

Definition text : LinguistDef.t :=
  LinguistDef.mk "prose" (Some [".txt"; ".no"]) (Some ["COPYING"; "README.me"]) None.

(** A small dataset in the shape of Linguist's [languages.yml]. *)
Definition sample : LinguistYaml :=
  [ ("CMake", cmake); ("Dockerfile", dockerfile); ("Ignore List", ignore);
    ("RenderScript", renderscript); ("Rust", rust);
    ("TSX", tsx); ("Text", text); ("XML", xml) ]%string.

Definition upperFoo : LinguistDef.t :=
  LinguistDef.mk "data" (Some [".x"]) None None.

Definition mixedFoo : LinguistDef.t :=
  LinguistDef.mk "programming" (Some [".x"]) (Some ["Foofile"]) None.

(** Two names that differ in letter case only. *)
Definition colliding : LinguistYaml :=
  [ ("FOO", upperFoo); ("Foo", mixedFoo) ]%string.

Definition alpha : LinguistDef.t :=
  LinguistDef.mk "programming" (Some [".d.ts"]) None None.

Definition beta : LinguistDef.t :=
  LinguistDef.mk "data" (Some [".d.ts"; ".beta"]) None None.

(** Two languages that claim one two-dot extension. *)
Definition twoDot : LinguistYaml :=
  [ ("Alpha", alpha); ("Beta", beta) ]%string.

Definition protoLang : LinguistDef.t :=
  LinguistDef.mk "programming" (Some [".p"]) None None.

(** A language whose name is the name of the prototype accessor. *)
Definition protoNamed : LinguistYaml :=
  [ ("__proto__", protoLang); ("B", protoLang) ]%string.

(** ** Views of the prototype-aware code *)

(** The name a candidate key contributes to the result, if any, when
    properties are read as JavaScript reads them. *)
Definition contribution (languagesData : LanguagesMap)
    (typeFilter : option string) (key : string) : option (option string) :=
  match Js.get languagesData key with
  | None => None
  | Some lang =>
      if Js.mismatch typeFilter lang then None else Some (Js.nameOf lang)
  end.

(** A result of the own-property reading as a result of JavaScript
    values: every name is a string, none is [undefined]. *)
Definition allStrings (result : option (list string))
    : option (list (option string)) :=
  (fun names : list string => Some <$> names) <$> result.

(** The property names the loop body reads from the reverse indices and
    the category index for one entry of the dataset. *)
Definition namesRead (def : LinguistDef.t) : list string :=
  default [] (LinguistDef.extensions def)
  ++ default [] (LinguistDef.filenames def)
  ++ [LinguistDef.type def].

(** An entry none of whose identifiers, nor its type, is the name of a
    member of [Object.prototype]. *)
Definition plain (entry : string * LinguistDef.t) : Prop :=
  Forall (fun id => Js.inherited id = None) (namesRead entry.2).

(** No own property of the object is named like a member of
    [Object.prototype]. *)
Definition unshadowed {A : Type} (obj : gmap string A) : Prop :=
  forall k, is_Some (obj !! k) -> Js.inherited k = None.

(** The build of the own-property reading without the property that the
    [__proto__] setter never creates. *)
Definition withoutProto (g : Generated) : Generated :=
  {| languagesDB := delete "__proto__"%string (languagesDB g);
     extensionIndex := extensionIndex g;
     filenameIndex := filenameIndex g;
     typesDB := typesDB g |}.

(** ** Views of a file name *)

(** Whether the character [c] occurs in [s]. *)
Fixpoint contains (c : ascii) (s : string) : bool :=
  match s with
  | EmptyString => false
  | String a s' => Ascii.eqb a c || contains c s'
  end.

(** The string without its first character. *)
Definition afterFirst (s : string) : string :=
  match s with
  | EmptyString => EmptyString
  | String _ s' => s'
  end.

(** The reverse-index entry the dataset calls for at [id]: absent when
    no language lists [id], else one key per listing, in dataset order. *)
Definition expectedEntry (ids : LinguistDef.t -> option (list string))
    (id : string) (ds : LinguistYaml) : option (list string) :=
  match keysFor ids id ds with
  | [] => None
  | ks => Some ks
  end.

(** No entry of a reverse index is an empty list. *)
Definition populated (ix : LookUpMap) : Prop :=
  forall id ks, ix !! id = Some ks -> ks <> [].

(** ** Proof automation *)

(** Case analysis on every integer comparison in the goal. *)
Ltac case_compare :=
  repeat match goal with
         | |- context [Z.leb ?x ?y] => destruct (Z.leb_spec x y)
         | |- context [Z.ltb ?x ?y] => destruct (Z.ltb_spec x y)
         | |- context [Z.eqb ?x ?y] => destruct (Z.eqb_spec x y)
         end.

(** A decidable fact about concrete data, settled by evaluation. *)
Ltac by_evaluation := apply (bool_decide_unpack _); vm_compute; exact I.

(** ** Facts about the string primitives *)

Example lastIndexOf_sample :
  lastIndexOf "a/b/c" "/" = 3 /\ lastIndexOf "abc" "/" = -1
  /\ lastIndexOf ".gitignore" "." = 0 /\ lastIndexOf "" "." = -1.
Proof. repeat split; reflexivity. Qed.

Example slice_sample :
  slice "a/b/c" 4 = "c"%string /\ slice "abc" 3 = ""%string
  /\ slice "abc" 10 = ""%string /\ slice "hello" (-2) = "lo"%string.
Proof. repeat split; reflexivity. Qed.

Example toLowerCase_sample :
  toLowerCase "PyThOn" = "python"%string
  /\ toLowerCase "Objective-C++" = "objective-c++"%string
  /\ toLowerCase "[Z@`{" = "[z@`{"%string.
Proof. repeat split; reflexivity. Qed.

Example getExtension_sample :
  getExtension "archive.tar.gz" None = ".gz"%string
  /\ getExtension "src.d/Makefile" None = ""%string
  /\ getExtension "a/.gitignore" None = ""%string
  /\ getExtension "a/b.c\d.e" None = ".e"%string
  /\ getExtension "trailing." None = "."%string
  /\ getExtension "ignored" (Some "known.ts"%string) = ".ts"%string.
Proof. repeat split; reflexivity. Qed.

Lemma lastIndexOf_bounds s c :
  -1 <= lastIndexOf s c < Z.of_nat (String.length s).
Proof.
  induction s as [|a s IH]; simpl; [lia|].
  destruct (Z.leb_spec 0 (lastIndexOf s c)); [lia|].
  destruct (Ascii.eqb a c); lia.
Qed.

Lemma slice_0 s : slice s 0 = s.
Proof. unfold slice. simpl. by rewrite Z.min_l by lia. Qed.

Lemma slice_succ a s n : 0 <= n -> slice (String a s) (n + 1) = slice s n.
Proof.
  intros Hn. unfold slice. case_compare; try lia.
  cbn [String.length].
  replace (Z.to_nat (Z.min (n + 1) (Z.of_nat (S (String.length s)))))
    with (S (Z.to_nat (Z.min n (Z.of_nat (String.length s))))) by lia.
  reflexivity.
Qed.



Lemma truthy_true s : truthy s = true <-> s <> EmptyString.
Proof. by destruct s. Qed.

(** ** Facts about [getBasename] and [getExtension] *)

Lemma lastSlash_found s :
  (0 <=? Z.max (lastIndexOf s "/") (lastIndexOf s "\")) = hasSeparator s.
Proof.
  induction s as [|a s IH]; [done|].
  cbn [lastIndexOf hasSeparator]. rewrite <- IH. unfold isSeparator.
  pose proof (lastIndexOf_bounds s "/"). pose proof (lastIndexOf_bounds s "\").
  destruct (Z.leb_spec 0 (lastIndexOf s "/")), (Z.leb_spec 0 (lastIndexOf s "\")),
    (Ascii.eqb a "/"), (Ascii.eqb a "\"); simpl; case_compare; try done; lia.
Qed.

Lemma getBasename_cons a s :
  getBasename (String a s) =
  if hasSeparator s then getBasename s
  else if isSeparator a then s else String a s.
Proof.
  rewrite <- lastSlash_found. unfold getBasename, isSeparator.
  cbn [lastIndexOf].
  pose proof (lastIndexOf_bounds s "/"). pose proof (lastIndexOf_bounds s "\").
  destruct (Z.leb_spec 0 (lastIndexOf s "/")), (Z.leb_spec 0 (lastIndexOf s "\")).
  - rewrite Z.add_max_distr_r. case_compare; try lia.
    apply slice_succ. lia.
  - destruct (Ascii.eqb a "\");
      (replace (Z.max (lastIndexOf s "/" + 1) _) with (lastIndexOf s "/" + 1) by lia);
      (replace (Z.max (lastIndexOf s "/") (lastIndexOf s "\"))
         with (lastIndexOf s "/") by lia);
      case_compare; try lia; apply slice_succ; lia.
  - destruct (Ascii.eqb a "/");
      (replace (Z.max _ (lastIndexOf s "\" + 1)) with (lastIndexOf s "\" + 1) by lia);
      (replace (Z.max (lastIndexOf s "/") (lastIndexOf s "\"))
         with (lastIndexOf s "\") by lia);
      case_compare; try lia; apply slice_succ; lia.
  - replace (Z.max (lastIndexOf s "/") (lastIndexOf s "\")) with (-1) by lia.
    destruct (Z.leb_spec 0 (-1)); [lia|].
    destruct (Ascii.eqb a "/"), (Ascii.eqb a "\"); simpl; try done;
      change (slice (String a s) (0 + 1) = s);
      rewrite slice_succ by lia; apply slice_0.
Qed.

Lemma getBasename_afterLastSeparator s : getBasename s = afterLastSeparator s.
Proof.
  induction s as [|a s IH]; [done|].
  rewrite getBasename_cons. cbn [afterLastSeparator]. by rewrite IH.
Qed.

Lemma afterLastSeparator_clean s : hasSeparator (afterLastSeparator s) = false.
Proof.
  induction s as [|a s IH]; [done|]. cbn [afterLastSeparator].
  destruct (hasSeparator s) eqn:Hs; [done|].
  destruct (isSeparator a) eqn:Ha; [done|].
  cbn [hasSeparator]. by rewrite Ha, Hs.
Qed.

Lemma afterLastSeparator_id s : hasSeparator s = false -> afterLastSeparator s = s.
Proof.
  destruct s as [|a s]; [done|]. cbn [hasSeparator afterLastSeparator].
  intros [Ha Hs]%orb_false_elim. by rewrite Hs, Ha.
Qed.

(** [afterLastSeparator] is the suffix the wording describes: the input
    has no separator and is returned whole, or it is a prefix, a
    separator and the result, and the result has no separator. *)
Lemma afterLastSeparator_suffix s :
  (hasSeparator s = false /\ afterLastSeparator s = s)
  \/ exists prefix c,
       isSeparator c = true
       /\ s = (prefix +:+ String c (afterLastSeparator s))%string
       /\ hasSeparator (afterLastSeparator s) = false.
Proof.
  induction s as [|a s IH]; [by left|]. cbn [hasSeparator afterLastSeparator].
  destruct (hasSeparator s) eqn:Hs.
  - right. destruct IH as [[? _]|(prefix & c & Hc & Heq & Hclean)]; [done|].
    exists (String a prefix), c. split; [done|]. split; [|done].
    rewrite Heq at 1. reflexivity.
  - rewrite orb_false_r. destruct (isSeparator a) eqn:Ha.
    + right. exists EmptyString, a. split; [done|]. split; [reflexivity|done].
    + by left.
Qed.

Lemma getBasename_idemp s : getBasename (getBasename s) = getBasename s.
Proof.
  rewrite !getBasename_afterLastSeparator.
  apply afterLastSeparator_id, afterLastSeparator_clean.
Qed.

Lemma getExtension_basename s :
  getExtension (getBasename s) None = getExtension s None.
Proof. unfold getExtension. simpl. by rewrite getBasename_idemp. Qed.

Lemma candidateKeys_basename (extensionsData filenamesData : LookUpMap) s :
  candidateKeys extensionsData filenamesData (getBasename s)
  = candidateKeys extensionsData filenamesData s.
Proof. unfold candidateKeys. by rewrite getBasename_idemp, getExtension_basename. Qed.

(** ** Facts about the loop of [getLanguageByFileName] *)

Section Loop.

Context (languagesData : LanguagesMap).

Lemma visit_survivor f acc key :
  visit languagesData f acc key =
  acc ++ option_list (survivor languagesData f key).
Proof.
  unfold visit, survivor. destruct (languagesData !! key) as [lang|]; simpl.
  - destruct (mismatch f lang); simpl; [by rewrite app_nil_r | done].
  - by rewrite app_nil_r.
Qed.

Lemma loop_omap f acc keys :
  foldl (visit languagesData f) acc keys =
  acc ++ omap (survivor languagesData f) keys.
Proof.
  revert acc. induction keys as [|k keys IH]; intros acc; simpl.
  - by rewrite app_nil_r.
  - rewrite IH, visit_survivor. unfold survivor.
    destruct (languagesData !! k) as [lang|]; simpl;
      [destruct (mismatch f lang); simpl|]; by rewrite <- ?app_assoc, ?app_nil_r.
Qed.

Lemma resolve_omap f keys :
  resolve languagesData f keys =
  match omap (survivor languagesData f) keys with
  | [] => None
  | names => Some names
  end.
Proof.
  unfold resolve. rewrite loop_omap. simpl.
  destruct keys as [|k keys]; [done|].
  change ((length (k :: keys) =? 0)%nat) with false. cbv iota.
  by destruct (omap _ (k :: keys)).
Qed.

Lemma survivor_filtered f key n :
  survivor languagesData (Some f) key = Some n ->
  survivor languagesData None key = Some n.
Proof.
  unfold survivor. destruct (languagesData !! key) as [lang|]; [|done].
  by destruct (mismatch (Some f) lang).
Qed.

Lemma omap_survivor_sublist f keys :
  omap (survivor languagesData (Some f)) keys
    `sublist_of` omap (survivor languagesData None) keys.
Proof.
  induction keys as [|k keys IH]; simpl; [constructor|].
  destruct (survivor languagesData (Some f) k) as [n|] eqn:Hk.
  - rewrite (survivor_filtered _ _ _ Hk). by constructor.
  - destruct (survivor languagesData None k); [by constructor | done].
Qed.


Lemma omap_survivor_names names :
  Forall (fun n => survivor languagesData None (toLowerCase n) = Some n) names ->
  omap (survivor languagesData None) (toLowerCase <$> names) = names.
Proof.
  induction 1 as [|n names Hn _ IH]; csimpl; [done|]. by rewrite Hn, IH.
Qed.

Lemma getLanguageByFileName_resolve extensionsData filenamesData p f :
  getLanguageByFileName languagesData extensionsData filenamesData p f =
  resolve languagesData f (candidateKeys extensionsData filenamesData p).
Proof.
  unfold getLanguageByFileName, resolve, candidateKeys.
  destruct (filenamesData !! getBasename p); [done|].
  destruct (truthy _); [|done].
  by destruct (extensionsData !! _).
Qed.


Lemma omap_getLanguage_names c names :
  Forall (fun n => exists r, getLanguage languagesData n = Some r
                             /\ name r = n /\ type r = c) names ->
  name <$> omap (getLanguage languagesData) names = names
  /\ Forall (fun r => type r = c) (omap (getLanguage languagesData) names).
Proof.
  induction 1 as [|n names (r & Hr & Hn & Hc) _ [IHn IHc]]; csimpl; [done|].
  rewrite Hr. csimpl. rewrite Hn, IHn. split; [done | by constructor].
Qed.

End Loop.

(** ** Facts about the index builder *)

Section Builder.

Implicit Types (g : Generated) (ds : LinguistYaml) (ix : LookUpMap).

Lemma generate_snoc ds entry :
  generateJSONs (ds ++ [entry]) = step (generateJSONs ds) entry.
Proof. unfold generateJSONs. by rewrite foldl_snoc. Qed.

(** *** The record store *)

Lemma languagesDB_step g entry k :
  languagesDB (step g entry) !! k =
  if decide (keyOf entry = k) then Some (record entry.1 entry.2)
  else languagesDB g !! k.
Proof.
  destruct entry as [n d]. unfold keyOf. simpl.
  rewrite lookup_insert. by destruct (decide (toLowerCase n = k)).
Qed.

Lemma languagesDB_untouched ds g k :
  Forall (fun entry => keyOf entry <> k) ds ->
  languagesDB (foldl step g ds) !! k = languagesDB g !! k.
Proof.
  intros Hds. revert g. induction Hds as [|entry ds Hk _ IH]; intros g; [done|].
  simpl. rewrite IH, languagesDB_step. by destruct (decide _).
Qed.

Lemma languagesDB_last ds1 entry ds2 g :
  Forall (fun later => keyOf later <> keyOf entry) ds2 ->
  languagesDB (foldl step g (ds1 ++ entry :: ds2)) !! keyOf entry
  = Some (record entry.1 entry.2).
Proof.
  intros Hlater. rewrite foldl_app. simpl.
  rewrite languagesDB_untouched by done.
  rewrite languagesDB_step. by destruct (decide _).
Qed.



Lemma languagesDB_unique ds entry :
  NoDup (keyOf <$> ds) -> entry ∈ ds ->
  languagesDB (generateJSONs ds) !! keyOf entry = Some (record entry.1 entry.2).
Proof.
  intros Hnd (ds1 & ds2 & ->)%list_elem_of_split.
  apply languagesDB_last.
  rewrite fmap_app, fmap_cons in Hnd.
  apply NoDup_app in Hnd as (_ & _ & Hnd). apply NoDup_cons in Hnd as [Hnotin _].
  apply Forall_forall. intros later Hlater Heq. apply Hnotin.
  rewrite <- Heq. apply list_elem_of_fmap. eauto.
Qed.

Lemma lookupName_unique ds n d :
  NoDup (keyOf <$> ds) -> (n, d) ∈ ds ->
  lookupName (generateJSONs ds) n = Some (record n d).
Proof. intros Hnd Hin. apply (languagesDB_unique ds (n, d) Hnd Hin). Qed.

(** *** The reverse indices *)

Lemma entryOf_push ix id key id' :
  entryOf (push ix id key) id' =
  entryOf ix id' ++ (if decide (id = id') then [key] else []).
Proof.
  unfold entryOf, push.
  destruct (decide (id = id')) as [<-|Hne].
  - destruct (ix !! id) as [ks|] eqn:Hks; by rewrite lookup_insert_eq.
  - rewrite app_nil_r.
    destruct (ix !! id) as [ks|]; by rewrite lookup_insert_ne.
Qed.

Lemma entryOf_pushAll ix ids key id :
  entryOf (pushAll ix ids key) id =
  entryOf ix id ++ ((fun _ => key) <$> claims id ids).
Proof.
  unfold pushAll, claims. destruct ids as [l|]; simpl; [|by rewrite app_nil_r].
  revert ix. induction l as [|x l IH]; intros ix; simpl; [by rewrite app_nil_r|].
  rewrite IH, entryOf_push, filter_cons.
  destruct (decide (x = id)); simpl; by rewrite <- ?app_assoc, ?app_nil_r.
Qed.

Lemma entryOf_extensionIndex ds g id :
  entryOf (extensionIndex (foldl step g ds)) id =
  entryOf (extensionIndex g) id ++ keysFor LinguistDef.extensions id ds.
Proof.
  revert g. induction ds as [|[n d] ds IH]; intros g; simpl; [by rewrite app_nil_r|].
  rewrite IH. simpl. by rewrite entryOf_pushAll, <- app_assoc.
Qed.

Lemma entryOf_filenameIndex ds g id :
  entryOf (filenameIndex (foldl step g ds)) id =
  entryOf (filenameIndex g) id ++ keysFor LinguistDef.filenames id ds.
Proof.
  revert g. induction ds as [|[n d] ds IH]; intros g; simpl; [by rewrite app_nil_r|].
  rewrite IH. simpl. by rewrite entryOf_pushAll, <- app_assoc.
Qed.

Lemma keysFor_claimants e ds :
  keysFor LinguistDef.extensions e ds = toLowerCase <$> claimants e ds.
Proof.
  unfold keysFor, claimants. induction ds as [|entry ds IH]; simpl; [done|].
  rewrite fmap_app, IH. f_equal. rewrite <- list_fmap_compose. done.
Qed.

Lemma claimants_named e ds n :
  n ∈ claimants e ds -> exists d, (n, d) ∈ ds.
Proof.
  unfold claimants. induction ds as [|[n' d'] ds IH]; simpl.
  - by intros ?%elem_of_nil.
  - intros [Hn|Hn]%elem_of_app.
    + apply list_elem_of_fmap in Hn as (x & -> & _). exists d'. by left.
    + destruct (IH Hn) as [d Hd]. exists d. by right.
Qed.

Lemma keyed_push languages ix id key :
  is_Some (languages !! key) -> keyed languages ix ->
  keyed languages (push ix id key).
Proof.
  intros Hkey Hix id' ks. unfold push.
  destruct (decide (id = id')) as [<-|Hne].
  - destruct (ix !! id) as [ks0|] eqn:Hks0; rewrite lookup_insert_eq;
      intros [= <-].
    + apply Forall_app. split; [by eapply Hix | by constructor].
    + by constructor.
  - destruct (ix !! id); rewrite lookup_insert_ne by done; apply Hix.
Qed.

Lemma keyed_pushAll languages ix ids key :
  is_Some (languages !! key) -> keyed languages ix ->
  keyed languages (pushAll ix ids key).
Proof.
  intros Hkey. unfold pushAll. destruct ids as [l|]; [|done].
  revert ix. induction l as [|x l IH]; intros ix Hix; simpl; [done|].
  by apply IH, keyed_push.
Qed.

Lemma keyed_insert languages ix key lang :
  keyed languages ix -> keyed (<[key := lang]> languages) ix.
Proof.
  intros Hix id ks Hks. eapply Forall_impl; [by eapply Hix|].
  intros k Hk. simpl. rewrite lookup_insert_is_Some.
  destruct (decide (key = k)); auto.
Qed.

Lemma consistent_step g entry : consistent g -> consistent (step g entry).
Proof.
  destruct entry as [n d]. intros [Hext Hfile].
  split; simpl; apply keyed_pushAll; try apply keyed_insert; try done;
    rewrite lookup_insert_eq; eauto.
Qed.

Lemma consistent_generate ds : consistent (generateJSONs ds).
Proof.
  induction ds as [|entry ds IH] using rev_ind.
  - split; intros id ks Hks; cbn in Hks; by rewrite lookup_empty in Hks.
  - rewrite generate_snoc. by apply consistent_step.
Qed.

(** *** The category index *)

Lemma pushType_lookup (types : TypeMap) ty n c :
  pushType types ty n !! c =
  (fun names => if truthy ty && bool_decide (ty = c) then names ++ [n] else names)
    <$> types !! c.
Proof.
  unfold pushType. destruct (truthy ty); simpl.
  - destruct (decide (ty = c)) as [<-|Hne].
    + rewrite bool_decide_eq_true_2 by done.
      destruct (types !! ty) as [names|] eqn:Hty;
        [by rewrite lookup_insert_eq | by rewrite Hty].
    + rewrite bool_decide_eq_false_2 by done.
      destruct (types !! ty) as [names|]; rewrite ?lookup_insert_ne by done;
        by destruct (types !! c).
  - by destruct (types !! c).
Qed.

Lemma typesDB_generate_from ds g c :
  truthy c = true ->
  typesDB (foldl step g ds) !! c =
  (fun names => names ++ namesOfType c ds) <$> typesDB g !! c.
Proof.
  intros Hc. revert g. induction ds as [|[n d] ds IH]; intros g.
  - simpl. destruct (typesDB g !! c); simpl; by rewrite ?app_nil_r.
  - simpl. rewrite IH. simpl. rewrite pushType_lookup.
    destruct (typesDB g !! c) as [names|]; simpl; [|done].
    unfold namesOfType. rewrite filter_cons. simpl.
    destruct (decide (LinguistDef.type d = c)) as [->|Hne].
    + rewrite Hc, bool_decide_eq_true_2 by done. simpl. by rewrite <- app_assoc.
    + rewrite bool_decide_eq_false_2, andb_false_r by done. done.
Qed.

Lemma typesDB_initial c :
  typesDB initial !! c = if recognized c then Some [] else None.
Proof.
  unfold initial, recognized. simpl.
  rewrite !lookup_insert, lookup_empty.
  destruct (decide (c ∈ ["data"; "programming"; "markup"; "prose"]%string))
    as [Hin|Hout].
  - rewrite bool_decide_eq_true_2 by done.
    rewrite !elem_of_cons, elem_of_nil in Hin.
    by destruct Hin as [->|[->|[->|[->|[]]]]].
  - rewrite bool_decide_eq_false_2 by done.
    rewrite !elem_of_cons, elem_of_nil in Hout.
    repeat (destruct (decide _) as [<-|_]; [exfalso; apply Hout; auto|]).
    done.
Qed.

Lemma typesDB_unrecognized ds g c :
  typesDB g !! c = None -> typesDB (foldl step g ds) !! c = None.
Proof.
  revert g. induction ds as [|[n d] ds IH]; intros g Hc; [done|].
  simpl. apply IH. simpl. by rewrite pushType_lookup, Hc.
Qed.

Lemma recognized_truthy c : recognized c = true -> truthy c = true.
Proof.
  unfold recognized. intros Hc%bool_decide_eq_true_1.
  rewrite !elem_of_cons, elem_of_nil in Hc.
  by destruct Hc as [->|[->|[->|[->|[]]]]].
Qed.

Lemma lookupType_generate ds c :
  lookupType (generateJSONs ds) c =
  if recognized c then namesOfType c ds else [].
Proof.
  unfold lookupType, getLanguagesByType, generateJSONs.
  destruct (recognized c) eqn:Hc.
  - rewrite typesDB_generate_from by by apply recognized_truthy.
    by rewrite typesDB_initial, Hc.
  - rewrite typesDB_unrecognized; [done|]. by rewrite typesDB_initial, Hc.
Qed.

Lemma namesOfType_named c ds n :
  n ∈ namesOfType c ds -> exists d, (n, d) ∈ ds /\ LinguistDef.type d = c.
Proof.
  unfold namesOfType. intros ([n' d] & -> & Hin)%list_elem_of_fmap.
  apply list_elem_of_filter in Hin as [Hc Hin]. eauto.
Qed.

End Builder.

(** ** The examples of the documentation, on the sample dataset *)

Example sample_rs :
  lookupFile (generateJSONs sample) "src\lib/shader.rs" None
  = Some ["RenderScript"; "Rust"; "XML"]%string.
Proof. vm_compute. reflexivity. Qed.

Example sample_dotfile :
  lookupFile (generateJSONs sample) ".gitignore" None = Some ["Ignore List"%string]
  /\ getExtension ".gitignore" None = ""%string
  /\ lookupFile (generateJSONs sample) "random_file_no_ext" None = None
  /\ lookupFile (generateJSONs sample) "image.fakeext" None = None.
Proof. repeat split; vm_compute; reflexivity. Qed.

Example mixed_separators :
  getBasename "C:\Users\Dev/project/index.js" = "index.js"%string
  /\ getBasename "a/b\style.css" = "style.css"%string
  /\ afterLastSeparator "a\b/style.css" = "style.css"%string
  /\ getBasename "dir/" = ""%string.
Proof. repeat split; reflexivity. Qed.

Example filter_eliminates_all :
  lookupFile (generateJSONs sample) "build/notes.txt" (Some "programming"%string) = None
  /\ lookupFile (generateJSONs sample) "build/notes.txt" None = Some ["Text"%string].
Proof. split; vm_compute; reflexivity. Qed.

Example filtered_sample :
  lookupFile (generateJSONs sample) "lib.rs" None
    = Some ["RenderScript"; "Rust"; "XML"]%string
  /\ lookupFile (generateJSONs sample) "lib.rs" (Some "programming"%string)
    = Some ["RenderScript"; "Rust"]%string
  /\ lookupFile (generateJSONs sample) "lib.rs" (Some "markup"%string) = None.
Proof. repeat split; vm_compute; reflexivity. Qed.

Example getLanguage_mixed_case :
  lookupName (generateJSONs sample) "rEnDeRsCrIpT"
  = Some (record "RenderScript" renderscript)
  /\ lookupName (generateJSONs sample) "" = None
  /\ lookupName (generateJSONs sample) "FakeLang123" = None.
Proof. repeat split; vm_compute; reflexivity. Qed.

(** The extension is what follows the last dot: a file named after the
    two-dot extension [.rs.in] of Rust is looked up under [.in]. *)
Example two_dot_extension :
  claimants ".rs.in" sample = ["Rust"%string]
  /\ getExtension "build.rs.in" None = ".in"%string
  /\ lookupFile (generateJSONs sample) "build.rs.in" None = None.
Proof. repeat split; vm_compute; reflexivity. Qed.

(** ** The claims about the lookup by file name *)



(** C2. [getLanguageByFileName] on a path equals [getLanguageByFileName]
    on what follows the rightmost of the two separator characters in it
    (the whole path when neither occurs), for every category filter. *)
Theorem path_resolves_as_basename
    (languagesData : LanguagesMap) (extensionsData filenamesData : LookUpMap)
    (p : string) (f : option string) :
  getLanguageByFileName languagesData extensionsData filenamesData p f
  = getLanguageByFileName languagesData extensionsData filenamesData
      (afterLastSeparator p) f.
Proof.
  rewrite <- getBasename_afterLastSeparator.
  rewrite !getLanguageByFileName_resolve.
  by rewrite candidateKeys_basename.
Qed.



(** C4. With a category filter the result is a subsequence of the result
    without one: "not found" when the unfiltered lookup finds nothing or
    when no name survives, and otherwise a non-empty list whose names
    occur, in the same order, in the unfiltered list. *)
Theorem filtered_is_sublist
    (languagesData : LanguagesMap) (extensionsData filenamesData : LookUpMap)
    (p f : string) :
  match getLanguageByFileName languagesData extensionsData filenamesData p None with
  | None =>
      getLanguageByFileName languagesData extensionsData filenamesData p (Some f) = None
  | Some all =>
      exists kept, kept `sublist_of` all
        /\ getLanguageByFileName languagesData extensionsData filenamesData p (Some f)
           = match kept with [] => None | _ => Some kept end
  end.
Proof.
  rewrite !getLanguageByFileName_resolve, !resolve_omap.
  set (ks := candidateKeys extensionsData filenamesData p).
  pose proof (omap_survivor_sublist languagesData f ks) as Hsub.
  destruct (omap (survivor languagesData None) ks) as [|n all] eqn:Hall.
  - apply sublist_nil_r in Hsub. by rewrite Hsub.
  - exists (omap (survivor languagesData (Some f)) ks). split; [done|].
    by destruct (omap (survivor languagesData (Some f)) ks).
Qed.



(** ** The claims about name lookup and the index builder *)



(** Own properties only.  In a dataset where no two names share a
    lowercased key, a non-empty extension claimed by two or more
    languages resolves, on a path with that extension and no exact file
    name, to the display names of the claimants in dataset order. *)
Lemma ambiguous_extension_in_dataset_order
    (ds : LinguistYaml) (e p : string) :
  NoDup (keyOf <$> ds) ->
  filenameIndex (generateJSONs ds) !! getBasename p = None ->
  getExtension p None = e ->
  e <> EmptyString ->
  (2 <= length (claimants e ds))%nat ->
  lookupFile (generateJSONs ds) p None = Some (claimants e ds).
Proof.
  intros Hnd Hfile He Hne Htwo. unfold lookupFile.
  rewrite getLanguageByFileName_resolve. unfold candidateKeys.
  rewrite Hfile, He. apply truthy_true in Hne. rewrite Hne.
  change (default [] (extensionIndex (generateJSONs ds) !! e))
    with (entryOf (extensionIndex (generateJSONs ds)) e).
  unfold generateJSONs at 2. rewrite entryOf_extensionIndex.
  change (entryOf (extensionIndex initial) e) with (@nil string).
  rewrite app_nil_l, keysFor_claimants, resolve_omap, omap_survivor_names.
  - destruct (claimants e ds); [simpl in Htwo; lia | done].
  - apply Forall_forall. intros n [d Hd]%claimants_named.
    unfold survivor. fold (getLanguage (languagesDB (generateJSONs ds)) n).
    fold (lookupName (generateJSONs ds) n).
    by rewrite (lookupName_unique ds n d Hnd Hd).
Qed.



(** ** Further facts about the string primitives *)

Lemma append_cons a s t :
  (String a s +:+ t)%string = String a (s +:+ t)%string.
Proof. reflexivity. Qed.

Lemma lastIndexOf_found s c : (0 <=? lastIndexOf s c) = contains c s.
Proof.
  induction s as [|a s IH]; [done|]. cbn [lastIndexOf contains].
  rewrite <- IH. pose proof (lastIndexOf_bounds s c).
  destruct (Z.leb_spec 0 (lastIndexOf s c)).
  - rewrite orb_true_r. case_compare; [done | lia].
  - rewrite orb_false_r. by destruct (Ascii.eqb a c).
Qed.

(** A found index splits the string at the last occurrence. *)
Lemma lastIndexOf_split s c :
  0 <= lastIndexOf s c ->
  exists pre rest,
    s = (pre +:+ String c rest)%string
    /\ contains c rest = false
    /\ Z.of_nat (String.length pre) = lastIndexOf s c
    /\ slice s (lastIndexOf s c) = String c rest.
Proof.
  induction s as [|a s IH]; cbn [lastIndexOf]; [lia|].
  pose proof (lastIndexOf_bounds s c) as Hb.
  pose proof (lastIndexOf_found s c) as Hfound.
  destruct (Z.leb_spec 0 (lastIndexOf s c)) as [Hr|Hr].
  - intros _. destruct (IH Hr) as (pre & rest & Hs & Hrest & Hlen & Hslice).
    exists (String a pre), rest. rewrite append_cons, <- Hs.
    repeat split; [done | cbn [String.length]; lia |].
    by rewrite slice_succ.
  - destruct (Ascii.eqb_spec a c) as [->|_]; [|lia]. intros _.
    exists EmptyString, s.
    split; [reflexivity|]. split; [done|]. split; [reflexivity | apply slice_0].
Qed.

Lemma hasSeparator_snoc s c :
  isSeparator c = true -> hasSeparator (s +:+ String c EmptyString)%string = true.
Proof.
  intros Hc. induction s as [|a s IH].
  - change (hasSeparator (String c EmptyString) = true). cbn [hasSeparator].
    by rewrite Hc.
  - rewrite append_cons. cbn [hasSeparator]. by rewrite IH, orb_true_r.
Qed.

Lemma afterLastSeparator_snoc s c :
  isSeparator c = true ->
  afterLastSeparator (s +:+ String c EmptyString)%string = EmptyString.
Proof.
  intros Hc. induction s as [|a s IH].
  - change (afterLastSeparator (String c EmptyString) = EmptyString).
    cbn [afterLastSeparator hasSeparator]. by rewrite Hc.
  - rewrite append_cons. cbn [afterLastSeparator].
    by rewrite hasSeparator_snoc.
Qed.


(** ** Further facts about the loop of [getLanguageByFileName] *)

Lemma survivor_empty_filter (languagesData : LanguagesMap) key :
  survivor languagesData (Some EmptyString) key = survivor languagesData None key.
Proof. unfold survivor. by destruct (languagesData !! key). Qed.

Lemma survivor_record (languagesData : LanguagesMap) f key n :
  survivor languagesData f key = Some n ->
  exists lang, languagesData !! key = Some lang
               /\ name lang = n /\ mismatch f lang = false.
Proof.
  unfold survivor. destruct (languagesData !! key) as [lang|]; [|done].
  destruct (mismatch f lang) eqn:Hm; [done|]. intros [= <-]. eauto.
Qed.

Lemma mismatch_type f lang :
  f <> EmptyString -> mismatch (Some f) lang = false -> type lang = f.
Proof.
  intros Hf%truthy_true. unfold mismatch. rewrite Hf. simpl.
  intros Heq%negb_false_iff. by apply String.eqb_eq.
Qed.

Lemma resolve_names (languagesData : LanguagesMap) f keys names n :
  resolve languagesData f keys = Some names -> n ∈ names ->
  exists key lang, key ∈ keys /\ languagesData !! key = Some lang
                   /\ name lang = n /\ mismatch f lang = false.
Proof.
  rewrite resolve_omap. intros Hres Hn.
  assert (n ∈ omap (survivor languagesData f) keys) as Hin.
  { destruct (omap (survivor languagesData f) keys); [done|]. by injection Hres as ->. }
  apply list_elem_of_omap in Hin as (key & Hkey & Hs).
  apply survivor_record in Hs as (lang & Hl & Hname & Hm). eauto 6.
Qed.

Lemma resolve_finds (languagesData : LanguagesMap) keys key lang :
  key ∈ keys -> languagesData !! key = Some lang ->
  exists names, resolve languagesData None keys = Some names /\ name lang ∈ names.
Proof.
  intros Hkey Hlang. rewrite resolve_omap.
  assert (name lang ∈ omap (survivor languagesData None) keys) as Hin.
  { apply list_elem_of_omap. exists key. split; [done|].
    unfold survivor. by rewrite Hlang. }
  destruct (omap (survivor languagesData None) keys) as [|n names];
    [by apply elem_of_nil in Hin | eauto].
Qed.

(** ** Properties of the path helpers *)

(** [getBasename] returns a string without separator: its argument when
    that has none, and otherwise what follows a separator of it. *)
Theorem getBasename_suffix (s : string) :
  hasSeparator (getBasename s) = false
  /\ (getBasename s = s
      \/ exists prefix c,
           isSeparator c = true
           /\ s = (prefix +:+ String c (getBasename s))%string).
Proof.
  rewrite getBasename_afterLastSeparator. split; [apply afterLastSeparator_clean|].
  destruct (afterLastSeparator_suffix s) as [[_ Hid]|(prefix & c & Hc & Hs & _)];
    [by left | right; eauto].
Qed.

(** [getBasename] leaves its argument unchanged exactly when the
    argument contains neither [/] nor [\]. *)
Theorem getBasename_fixed_iff (s : string) :
  getBasename s = s <-> hasSeparator s = false.
Proof.
  rewrite getBasename_afterLastSeparator. split.
  - intros <-. apply afterLastSeparator_clean.
  - apply afterLastSeparator_id.
Qed.

(** A path that ends in a separator has the empty basename and the empty
    extension. *)
Theorem getBasename_trailing_separator (s : string) :
  getBasename (s +:+ "/")%string = EmptyString
  /\ getBasename (s +:+ "\")%string = EmptyString
  /\ getExtension (s +:+ "/")%string None = EmptyString
  /\ getExtension (s +:+ "\")%string None = EmptyString.
Proof.
  assert (getBasename (s +:+ "/")%string = EmptyString) as Hfwd
    by (rewrite getBasename_afterLastSeparator; by apply afterLastSeparator_snoc).
  assert (getBasename (s +:+ "\")%string = EmptyString) as Hback
    by (rewrite getBasename_afterLastSeparator; by apply afterLastSeparator_snoc).
  unfold getExtension. simpl. by rewrite Hfwd, Hback.
Qed.

(** The extension [getExtension] returns is empty, or it is what follows
    a non-empty stem of the basename: a dot and then a dot-free rest. *)
Theorem getExtension_shape (s : string) :
  getExtension s None = EmptyString
  \/ exists stem rest,
       stem <> EmptyString
       /\ getBasename s = (stem +:+ getExtension s None)%string
       /\ getExtension s None = String "." rest
       /\ contains "." rest = false.
Proof.
  unfold getExtension. simpl. set (base := getBasename s).
  destruct (Z.leb_spec (lastIndexOf base ".") 0) as [Hi|Hi]; [by left|right].
  destruct (lastIndexOf_split base "." ltac:(lia))
    as (stem & rest & Hbase & Hrest & Hlen & Hslice).
  exists stem, rest. rewrite Hslice. repeat split; try done.
  intros ->. simpl in Hlen. lia.
Qed.

(** The extension is empty exactly when the basename has no dot after
    its first character (no dot at all, or only a leading one). *)
Theorem getExtension_empty_iff (s : string) :
  getExtension s None = EmptyString
  <-> contains "." (afterFirst (getBasename s)) = false.
Proof.
  unfold getExtension. simpl. set (base := getBasename s).
  destruct (Z.leb_spec (lastIndexOf base ".") 0) as [Hi|Hi].
  - split; [intros _|done]. destruct base as [|a t]; [done|].
    cbn [afterFirst]. cbn [lastIndexOf] in Hi.
    rewrite <- lastIndexOf_found. pose proof (lastIndexOf_bounds t ".").
    destruct (Z.leb_spec 0 (lastIndexOf t ".")); [lia | done].
  - destruct (lastIndexOf_split base "." ltac:(lia)) as (pre & rest & _ & _ & _ & ->).
    split; [done|]. intros Hno. exfalso.
    destruct base as [|a t]; [cbn in Hi; lia|].
    cbn [afterFirst] in Hno. cbn [lastIndexOf] in Hi.
    rewrite <- lastIndexOf_found in Hno.
    destruct (Z.leb_spec 0 (lastIndexOf t ".")); [done|].
    destruct (Ascii.eqb a "."); lia.
Qed.

(** ** Properties of the lookup by file name *)



(** The empty string as a category filter filters nothing. *)
Theorem empty_filter_is_no_filter
    (languagesData : LanguagesMap) (extensionsData filenamesData : LookUpMap)
    (p : string) :
  getLanguageByFileName languagesData extensionsData filenamesData p
    (Some EmptyString)
  = getLanguageByFileName languagesData extensionsData filenamesData p None.
Proof.
  rewrite !getLanguageByFileName_resolve, !resolve_omap.
  replace (omap (survivor languagesData (Some EmptyString))
             (candidateKeys extensionsData filenamesData p))
    with (omap (survivor languagesData None)
            (candidateKeys extensionsData filenamesData p)); [done|].
  apply list_omap_ext, Forall2_same_length_lookup. split; [done|].
  intros i key key' Hkey Hkey'. rewrite Hkey in Hkey'. injection Hkey' as <-.
  by rewrite survivor_empty_filter.
Qed.



(** ** Further facts about the index builder *)

Section BuilderMore.

Implicit Types (g : Generated) (ds : LinguistYaml) (ix : LookUpMap).

Lemma languagesDB_none ds g k :
  languagesDB (foldl step g ds) !! k = None
  <-> languagesDB g !! k = None /\ k ∉ keyOf <$> ds.
Proof.
  revert g. induction ds as [|entry ds IH]; intros g.
  - simpl. rewrite elem_of_nil. tauto.
  - cbn [foldl]. rewrite IH, languagesDB_step, fmap_cons, not_elem_of_cons.
    destruct (decide (keyOf entry = k)) as [->|Hne].
    + split; [by intros [? _] | by intros (_ & ? & _)].
    + split; [intros [? ?] | intros (? & _ & ?)]; repeat split; congruence.
Qed.

Lemma languagesDB_origin ds g k r :
  languagesDB (foldl step g ds) !! k = Some r ->
  languagesDB g !! k = Some r
  \/ exists entry, entry ∈ ds /\ keyOf entry = k /\ r = record entry.1 entry.2.
Proof.
  revert g. induction ds as [|entry ds IH]; intros g; [by left|].
  cbn [foldl]. intros [Hstep|(later & Hin & Hk & Hr)]%IH.
  - rewrite languagesDB_step in Hstep.
    destruct (decide (keyOf entry = k)) as [Hk|_]; [|by left].
    right. exists entry. injection Hstep as <-. repeat split; [by left | done].
  - right. exists later. repeat split; [by right | done | done].
Qed.

Lemma languagesDB_over ds g k :
  languagesDB (foldl step g ds) !! k =
  match languagesDB (generateJSONs ds) !! k with
  | Some r => Some r
  | None => languagesDB g !! k
  end.
Proof.
  induction ds as [|entry ds IH] using rev_ind; [done|].
  rewrite generate_snoc, foldl_snoc, !languagesDB_step.
  by destruct (decide (keyOf entry = k)).
Qed.

Lemma keysFor_app ids id ds ds' :
  keysFor ids id (ds ++ ds') = keysFor ids id ds ++ keysFor ids id ds'.
Proof. unfold keysFor. apply flat_map_app. Qed.

Lemma keysFor_elem ids id ds entry :
  entry ∈ ds -> id ∈ default [] (ids entry.2) ->
  keyOf entry ∈ keysFor ids id ds.
Proof.
  intros (ds1 & ds2 & ->)%list_elem_of_split Hid.
  rewrite keysFor_app. apply elem_of_app. right.
  unfold keysFor. cbn [flat_map]. apply elem_of_app. left.
  assert (id ∈ claims id (ids entry.2)) as Hclaim.
  { unfold claims. by apply list_elem_of_filter. }
  apply (list_elem_of_fmap_2 (fun _ => keyOf entry)) in Hclaim. exact Hclaim.
Qed.

Lemma namesOfType_app c ds ds' :
  namesOfType c (ds ++ ds') = namesOfType c ds ++ namesOfType c ds'.
Proof. unfold namesOfType. by rewrite filter_app, fmap_app. Qed.

Lemma entryOf_generate_extensions ds id :
  entryOf (extensionIndex (generateJSONs ds)) id
  = keysFor LinguistDef.extensions id ds.
Proof. unfold generateJSONs. by rewrite entryOf_extensionIndex. Qed.

Lemma entryOf_generate_filenames ds id :
  entryOf (filenameIndex (generateJSONs ds)) id
  = keysFor LinguistDef.filenames id ds.
Proof. unfold generateJSONs. by rewrite entryOf_filenameIndex. Qed.

Lemma entryOf_elem ix id key :
  key ∈ entryOf ix id -> exists ks, ix !! id = Some ks /\ key ∈ ks.
Proof.
  unfold entryOf. destruct (ix !! id) as [ks|]; simpl; [eauto|].
  by intros ?%elem_of_nil.
Qed.

Lemma populated_push ix id key : populated ix -> populated (push ix id key).
Proof.
  intros Hix id' ks. unfold push.
  destruct (decide (id = id')) as [<-|Hne].
  - destruct (ix !! id) as [ks0|]; rewrite lookup_insert_eq; intros [= <-];
      [by destruct ks0 | done].
  - destruct (ix !! id); rewrite lookup_insert_ne by done; apply Hix.
Qed.

Lemma populated_pushAll ix ids key : populated ix -> populated (pushAll ix ids key).
Proof.
  unfold pushAll. destruct ids as [l|]; [|done].
  revert ix. induction l as [|x l IH]; intros ix Hix; simpl; [done|].
  by apply IH, populated_push.
Qed.

Lemma populated_generate ds :
  populated (extensionIndex (generateJSONs ds))
  /\ populated (filenameIndex (generateJSONs ds)).
Proof.
  induction ds as [|[n d] ds [IHe IHf]] using rev_ind.
  - split; intros id ks Hks; cbn in Hks; by rewrite lookup_empty in Hks.
  - rewrite generate_snoc. split; simpl; by apply populated_pushAll.
Qed.

Lemma populated_lookup ix id :
  populated ix ->
  ix !! id = match entryOf ix id with [] => None | ks => Some ks end.
Proof.
  intros Hix. unfold entryOf. destruct (ix !! id) as [ks|] eqn:Hks; simpl; [|done].
  destruct ks; [by destruct (Hix _ _ Hks) | done].
Qed.

Lemma unique_definition ds n d1 d2 :
  NoDup ds.*1 -> (n, d1) ∈ ds -> (n, d2) ∈ ds -> d1 = d2.
Proof.
  induction ds as [|[n' d'] ds IH]; csimpl; [by intros _ ?%elem_of_nil|].
  intros [Hnotin Hnd]%NoDup_cons [Heq1|Hin1]%elem_of_cons [Heq2|Hin2]%elem_of_cons.
  - congruence.
  - injection Heq1 as -> ->. destruct Hnotin.
    by apply (list_elem_of_fmap_2 fst) in Hin2.
  - injection Heq2 as -> ->. destruct Hnotin.
    by apply (list_elem_of_fmap_2 fst) in Hin1.
  - by apply IH.
Qed.

End BuilderMore.

(** ** Properties of name lookup over a build *)

(** Own properties only.  A record the store holds is the record of an
    entry of the dataset, whose name lowercases to the key. *)
Lemma getLanguage_returns_dataset_entry
    (ds : LinguistYaml) (n : string) (r : Language) :
  lookupName (generateJSONs ds) n = Some r ->
  exists d, (name r, d) ∈ ds
            /\ r = record (name r) d
            /\ toLowerCase (name r) = toLowerCase n.
Proof.
  unfold lookupName, getLanguage, generateJSONs.
  intros [Hinit|([n' d] & Hin & Hkey & ->)]%languagesDB_origin.
  - cbn in Hinit. by rewrite lookup_empty in Hinit.
  - exists d. by repeat split.
Qed.

(** ** Properties of the reverse indices *)

(** Own properties only.  Each reverse index has an entry at [id]
    exactly when some language lists [id], with one lowercased key per
    listing in dataset order; no entry is empty. *)
Lemma reverse_index_entries (ds : LinguistYaml) (id : string) :
  extensionIndex (generateJSONs ds) !! id
    = expectedEntry LinguistDef.extensions id ds
  /\ filenameIndex (generateJSONs ds) !! id
    = expectedEntry LinguistDef.filenames id ds.
Proof.
  destruct (populated_generate ds) as [Hext Hfile]. unfold expectedEntry.
  rewrite (populated_lookup _ id Hext), (populated_lookup _ id Hfile).
  by rewrite entryOf_generate_extensions, entryOf_generate_filenames.
Qed.

(** A file named by a file name that a stored record lists resolves,
    without a filter, to a list that has the record's display name. *)
Theorem listed_filename_resolves
    (ds : LinguistYaml) (n p : string) (r : Language) :
  lookupName (generateJSONs ds) n = Some r ->
  getBasename p ∈ filenames r ->
  exists names, lookupFile (generateJSONs ds) p None = Some names
                /\ name r ∈ names.
Proof.
  intros Hr Hfile. pose proof Hr as Hstored.
  unfold lookupName, getLanguage, generateJSONs in Hr.
  apply languagesDB_origin in Hr as [Hinit|(entry & Hin & Hkey & ->)];
    [cbn in Hinit; by rewrite lookup_empty in Hinit|].
  apply (keysFor_elem LinguistDef.filenames _ _ _ Hin) in Hfile.
  rewrite <- entryOf_generate_filenames, Hkey in Hfile.
  apply entryOf_elem in Hfile as (ks & Hks & Hk).
  unfold lookupFile. rewrite getLanguageByFileName_resolve.
  unfold candidateKeys. rewrite Hks.
  by apply (resolve_finds _ ks (toLowerCase n)).
Qed.

Lemma listed_filename_resolves_witness :
  exists names,
    lookupFile (generateJSONs sample) "C:\work\Web.config" None = Some names
    /\ name (record "XML" xml) ∈ names.
Proof.
  apply (listed_filename_resolves sample "xml" "C:\work\Web.config" (record "XML" xml)).
  - vm_compute. reflexivity.
  - by_evaluation.
Defined.

(** A file whose non-empty extension a stored record lists, and whose
    basename is no exact file name, resolves, without a filter, to a list
    that has the record's display name. *)
Theorem listed_extension_resolves
    (ds : LinguistYaml) (n p : string) (r : Language) :
  lookupName (generateJSONs ds) n = Some r ->
  getExtension p None ∈ extensions r ->
  getExtension p None <> EmptyString ->
  filenameIndex (generateJSONs ds) !! getBasename p = None ->
  exists names, lookupFile (generateJSONs ds) p None = Some names
                /\ name r ∈ names.
Proof.
  intros Hr Hext Hne%truthy_true Hbase. pose proof Hr as Hstored.
  unfold lookupName, getLanguage, generateJSONs in Hr.
  apply languagesDB_origin in Hr as [Hinit|(entry & Hin & Hkey & ->)];
    [cbn in Hinit; by rewrite lookup_empty in Hinit|].
  apply (keysFor_elem LinguistDef.extensions _ _ _ Hin) in Hext.
  rewrite <- entryOf_generate_extensions, Hkey in Hext.
  apply entryOf_elem in Hext as (ks & Hks & Hk).
  unfold lookupFile. rewrite getLanguageByFileName_resolve.
  unfold candidateKeys. rewrite Hbase, Hne, Hks.
  by apply (resolve_finds _ ks (toLowerCase n)).
Qed.

Lemma listed_extension_resolves_witness :
  exists names,
    lookupFile (generateJSONs colliding) "dir/f.x" None = Some names
    /\ name (record "Foo" mixedFoo) ∈ names.
Proof.
  apply (listed_extension_resolves colliding "FOO" "dir/f.x" (record "Foo" mixedFoo)).
  - vm_compute. reflexivity.
  - by_evaluation.
  - discriminate.
  - vm_compute. reflexivity.
Defined.

(** ** Properties of the category index *)

(** Every name [getLanguageByFileName] returns under a recognised
    category filter is in the list [getLanguagesByType] returns for that
    category. *)
Theorem filtered_names_in_category
    (ds : LinguistYaml) (c p n : string) (names : list string) :
  recognized c = true ->
  lookupFile (generateJSONs ds) p (Some c) = Some names ->
  n ∈ names ->
  n ∈ lookupType (generateJSONs ds) c.
Proof.
  intros Hc Hres Hn. unfold lookupFile in Hres.
  rewrite getLanguageByFileName_resolve in Hres.
  destruct (resolve_names _ _ _ _ _ Hres Hn) as (key & lang & _ & Hl & <- & Hm).
  apply mismatch_type in Hm; [|by apply truthy_true, recognized_truthy].
  unfold generateJSONs in Hl.
  apply languagesDB_origin in Hl as [Hinit|([n' d] & Hin & _ & ->)];
    [cbn in Hinit; by rewrite lookup_empty in Hinit|].
  rewrite lookupType_generate, Hc. unfold namesOfType.
  apply (list_elem_of_fmap_2' fst _ (n', d)); [|done].
  by apply list_elem_of_filter.
Qed.

Lemma filtered_names_in_category_witness :
  "Dockerfile"%string ∈ lookupType (generateJSONs sample) "programming".
Proof.
  apply (filtered_names_in_category sample "programming" "app/Dockerfile"
           "Dockerfile" ["Dockerfile"%string]).
  - reflexivity.
  - vm_compute. reflexivity.
  - by_evaluation.
Defined.

(** When the names of the dataset are distinct, the list of a category
    has no name twice, and no name is in the lists of two categories. *)
Theorem category_lists_disjoint (ds : LinguistYaml) (c1 c2 n : string) :
  NoDup ds.*1 ->
  NoDup (lookupType (generateJSONs ds) c1)
  /\ (n ∈ lookupType (generateJSONs ds) c1 ->
      n ∈ lookupType (generateJSONs ds) c2 -> c1 = c2).
Proof.
  intros Hnd. rewrite !lookupType_generate. split.
  - destruct (recognized c1); [|constructor].
    apply (sublist_NoDup _ _ Hnd). unfold namesOfType.
    apply fmap_sublist, sublist_filter.
  - destruct (recognized c1); [|by intros ?%elem_of_nil].
    destruct (recognized c2); [|by intros _ ?%elem_of_nil].
    intros (d1 & Hd1 & <-)%namesOfType_named (d2 & Hd2 & <-)%namesOfType_named.
    by rewrite (unique_definition ds n d1 d2 Hnd Hd1 Hd2).
Qed.

Lemma category_lists_disjoint_witness :
  NoDup (lookupType (generateJSONs sample) "data")
  /\ ("XML"%string ∈ lookupType (generateJSONs sample) "data" ->
      "XML"%string ∈ lookupType (generateJSONs sample) "data" ->
      "data"%string = "data"%string).
Proof.
  apply (category_lists_disjoint sample "data" "data" "XML"). by_evaluation.
Defined.

(** ** How a build composes *)

(** Building from a dataset followed by another gives, at every
    identifier and category, the entries of the first build followed by
    those of the second, and a record store in which the records of the
    second build take precedence. *)
Theorem build_of_append (ds ds' : LinguistYaml) (id c : string) :
  entryOf (extensionIndex (generateJSONs (ds ++ ds'))) id
    = entryOf (extensionIndex (generateJSONs ds)) id
      ++ entryOf (extensionIndex (generateJSONs ds')) id
  /\ entryOf (filenameIndex (generateJSONs (ds ++ ds'))) id
    = entryOf (filenameIndex (generateJSONs ds)) id
      ++ entryOf (filenameIndex (generateJSONs ds')) id
  /\ lookupType (generateJSONs (ds ++ ds')) c
    = lookupType (generateJSONs ds) c ++ lookupType (generateJSONs ds') c
  /\ languagesDB (generateJSONs (ds ++ ds'))
    = languagesDB (generateJSONs ds') ∪ languagesDB (generateJSONs ds).
Proof.
  rewrite !entryOf_generate_extensions, !entryOf_generate_filenames.
  rewrite !keysFor_app, !lookupType_generate, namesOfType_app.
  repeat split; try done.
  - by destruct (recognized c).
  - apply map_eq. intros k. unfold generateJSONs at 1.
    rewrite foldl_app, languagesDB_over. fold (generateJSONs ds).
    destruct (languagesDB (generateJSONs ds') !! k) as [r|] eqn:Hk.
    + symmetry. by apply lookup_union_Some_l.
    + symmetry. by rewrite lookup_union_r.
Qed.

(** ** The earlier revision of the lookup by category *)



(** ** What a lookup by file name can return *)

Lemma keysFor_origin ids id ds key :
  key ∈ keysFor ids id ds ->
  exists entry, entry ∈ ds /\ keyOf entry = key /\ id ∈ default [] (ids entry.2).
Proof.
  unfold keysFor. induction ds as [|entry ds IH]; cbn [flat_map].
  - by intros ?%elem_of_nil.
  - intros [Hhead|Htail]%elem_of_app.
    + apply list_elem_of_fmap in Hhead as (x & -> & Hx).
      unfold claims in Hx. apply list_elem_of_filter in Hx as [-> Hx].
      exists entry. repeat split; [by left | done].
    + destruct (IH Htail) as (later & Hin & Hk & Hid).
      exists later. repeat split; [by right | done | done].
Qed.

Lemma unique_keys_unique_names (ds : LinguistYaml) :
  NoDup (keyOf <$> ds) -> NoDup ds.*1.
Proof.
  intros Hnd. apply (NoDup_fmap_1 toLowerCase).
  by rewrite <- list_fmap_compose.
Qed.

(** Own properties only.  With collision-free keys, every name returned
    is the display name of a stored record that lists the basename or
    the extension. *)
Lemma returned_names_list_the_file
    (ds : LinguistYaml) (p n : string) (f : option string) (names : list string) :
  NoDup (keyOf <$> ds) ->
  lookupFile (generateJSONs ds) p f = Some names ->
  n ∈ names ->
  exists r, lookupName (generateJSONs ds) n = Some r
            /\ name r = n
            /\ (getBasename p ∈ filenames r
                \/ getExtension p None ∈ extensions r).
Proof.
  intros Hnd Hres Hn. unfold lookupFile in Hres.
  rewrite getLanguageByFileName_resolve in Hres.
  destruct (resolve_names _ _ _ _ _ Hres Hn) as (key & lang & Hkey & Hl & <- & _).
  assert (exists entry, entry ∈ ds /\ keyOf entry = key
            /\ (getBasename p ∈ default [] (LinguistDef.filenames entry.2)
                \/ getExtension p None ∈ default [] (LinguistDef.extensions entry.2)))
    as ([n' d] & Hin & <- & Hlists).
  { unfold candidateKeys in Hkey.
    destruct (filenameIndex (generateJSONs ds) !! getBasename p) as [ks|] eqn:Hks.
    - assert (key ∈ entryOf (filenameIndex (generateJSONs ds)) (getBasename p))
        as Hk by (unfold entryOf; by rewrite Hks).
      rewrite entryOf_generate_filenames in Hk.
      apply keysFor_origin in Hk as (entry & ? & ? & ?). eauto 6.
    - destruct (truthy (getExtension p None)); [|by apply elem_of_nil in Hkey].
      fold (entryOf (extensionIndex (generateJSONs ds)) (getExtension p None)) in Hkey.
      rewrite entryOf_generate_extensions in Hkey.
      apply keysFor_origin in Hkey as (entry & ? & ? & ?). eauto 6. }
  rewrite (languagesDB_unique ds (n', d) Hnd Hin) in Hl. injection Hl as <-.
  exists (record n' d). split; [by apply lookupName_unique|]. by split.
Qed.

(** ** Facts about the members of [Object.prototype] *)

Ltac case_member k :=
  unfold Js.inherited, Js.objectPrototype; cbn [Js.lookupMember];
  repeat match goal with
         | |- context [String.eqb k ?name] =>
             destruct (String.eqb_spec k name) as [->|?]
         end.

Lemma inherited_dotless k :
  is_Some (Js.inherited k) -> contains "." k = false.
Proof. case_member k; try reflexivity. by intros []. Qed.

Lemma inherited_recognized c : recognized c = true -> Js.inherited c = None.
Proof.
  unfold recognized. intros Hc%bool_decide_eq_true_1.
  rewrite !elem_of_cons, elem_of_nil in Hc.
  by destruct Hc as [->|[->|[->|[->|[]]]]].
Qed.

Lemma inherited_extension p : Js.inherited (getExtension p None) = None.
Proof.
  destruct (Js.inherited (getExtension p None)) as [m|] eqn:Hm; [|done].
  assert (contains "." (getExtension p None) = false) as Hdot
    by (apply inherited_dotless; eauto).
  unfold getExtension in *. simpl in *.
  destruct (Z.leb_spec (lastIndexOf (getBasename p) ".") 0); [done|].
  destruct (lastIndexOf_split (getBasename p) "." ltac:(lia))
    as (_ & rest & _ & _ & _ & Hslice).
  rewrite Hslice in Hdot. done.
Qed.

Lemma contains_suffix c pre s :
  contains c s = true -> contains c (pre +:+ s)%string = true.
Proof.
  intros Hs. induction pre as [|a pre IH]; [done|].
  rewrite append_cons. cbn [contains]. by rewrite IH, orb_true_r.
Qed.

Lemma inherited_basename p :
  getExtension p None <> EmptyString -> Js.inherited (getBasename p) = None.
Proof.
  intros Hext. destruct (Js.inherited (getBasename p)) as [m|] eqn:Hm; [|done].
  assert (contains "." (getBasename p) = false) as Hdot
    by (apply inherited_dotless; eauto).
  destruct (getExtension_shape p) as [?|(stem & rest & _ & Hbase & Hshape & _)];
    [done|].
  rewrite Hbase, Hshape, contains_suffix in Hdot; done.
Qed.

Lemma get_own {A} (obj : gmap string A) k a :
  obj !! k = Some a -> Js.get obj k = Some (Js.Own a).
Proof. unfold Js.get. by intros ->. Qed.

Lemma get_plain {A} (obj : gmap string A) k :
  Js.inherited k = None -> Js.get obj k = Js.Own <$> obj !! k.
Proof. unfold Js.get. intros ->. by destruct (obj !! k). Qed.

Lemma get_unshadowed {A} (obj : gmap string A) k :
  unshadowed obj ->
  Js.get obj k = match Js.inherited k with
                 | Some m => Some (Js.Inherited m)
                 | None => Js.Own <$> obj !! k
                 end.
Proof.
  intros Hobj. unfold Js.get. destruct (obj !! k) as [a|] eqn:Hk.
  - by rewrite (Hobj k) by eauto.
  - by destruct (Js.inherited k).
Qed.

(** ** The builder of module [Js] against the own-property builder *)

Section JsBuilder.

Implicit Types (g : Generated) (ds : LinguistYaml) (ix : LookUpMap).

Lemma foldl_thrown {A B} (f : A -> B -> option A) (l : list B) :
  foldl (fun acc x => a ← acc; f a x) None l = None.
Proof. by induction l. Qed.

Lemma push_js_plain ix id key :
  Js.inherited id = None -> Js.push ix id key = Some (push ix id key).
Proof.
  intros Hid. unfold Js.push, push. rewrite get_plain by done.
  by destruct (ix !! id).
Qed.

Lemma push_js_some ix id key ix' :
  unshadowed ix -> Js.push ix id key = Some ix' -> Js.inherited id = None.
Proof.
  intros Hix. unfold Js.push. rewrite get_unshadowed by done.
  by destruct (Js.inherited id).
Qed.

Lemma unshadowed_push ix id key :
  Js.inherited id = None -> unshadowed ix -> unshadowed (push ix id key).
Proof.
  intros Hid Hix k. unfold push.
  destruct (ix !! id); rewrite lookup_insert_is_Some;
    (intros [<-|[_ Hk]]; [done | by apply Hix]).
Qed.

Lemma pushAll_js_plain ix ids key :
  Forall (fun id => Js.inherited id = None) (default [] ids) ->
  Js.pushAll ix ids key = Some (pushAll ix ids key).
Proof.
  unfold Js.pushAll, pushAll. destruct ids as [l|]; simpl; [|done].
  intros Hl. revert ix. induction Hl as [|id l Hid _ IH]; intros ix; [done|].
  cbn [foldl]. simpl. rewrite push_js_plain by done. apply IH.
Qed.

Lemma pushAll_js_some ix ids key ix' :
  unshadowed ix -> Js.pushAll ix ids key = Some ix' ->
  Forall (fun id => Js.inherited id = None) (default [] ids).
Proof.
  unfold Js.pushAll. destruct ids as [l|]; simpl; [|by constructor].
  revert ix. induction l as [|id l IH]; intros ix Hix; [by constructor|].
  cbn [foldl]. simpl. destruct (Js.push ix id key) as [ix1|] eqn:Hpush.
  - pose proof (push_js_some _ _ _ _ Hix Hpush) as Hid.
    rewrite push_js_plain in Hpush by done. injection Hpush as <-.
    intros Hrest. constructor; [done|].
    apply (IH (push ix id key)); [by apply unshadowed_push | done].
  - by rewrite foldl_thrown.
Qed.

Lemma unshadowed_pushAll ix ids key :
  Forall (fun id => Js.inherited id = None) (default [] ids) ->
  unshadowed ix -> unshadowed (pushAll ix ids key).
Proof.
  unfold pushAll. destruct ids as [l|]; simpl; [|done].
  intros Hl. revert ix. induction Hl as [|id l Hid _ IH]; intros ix Hix; [done|].
  cbn [foldl]. by apply IH, unshadowed_push.
Qed.

Lemma pushType_js_plain (types : TypeMap) ty n :
  Js.inherited ty = None -> Js.pushType types ty n = Some (pushType types ty n).
Proof.
  intros Hty. unfold Js.pushType, pushType. rewrite get_plain by done.
  destruct (truthy ty); [|done]. by destruct (types !! ty).
Qed.

Lemma pushType_js_some (types types' : TypeMap) ty n :
  unshadowed types -> Js.pushType types ty n = Some types' ->
  Js.inherited ty = None.
Proof.
  intros Htypes. unfold Js.pushType. destruct (truthy ty) eqn:Hty.
  - rewrite get_unshadowed by done. by destruct (Js.inherited ty).
  - by destruct ty.
Qed.

Lemma assign_withoutProto (languages : LanguagesMap) key r :
  Js.assign (delete "__proto__"%string languages) key r
  = delete "__proto__"%string (<[key := r]> languages).
Proof.
  unfold Js.assign. destruct (String.eqb_spec key "__proto__") as [->|Hne].
  - by rewrite delete_insert_eq.
  - by rewrite delete_insert_ne.
Qed.

Lemma step_js_plain g entry :
  plain entry -> Js.step (withoutProto g) entry = Some (withoutProto (step g entry)).
Proof.
  destruct entry as [n d]. unfold plain, namesRead. simpl.
  intros [Hext [Hfile Htype]%Forall_app]%Forall_app.
  rewrite Forall_singleton in Htype.
  rewrite !pushAll_js_plain by done. simpl.
  rewrite pushType_js_plain by done. simpl.
  unfold withoutProto. simpl. by rewrite assign_withoutProto.
Qed.

Lemma step_js_some g entry g' :
  unshadowed (extensionIndex g) -> unshadowed (filenameIndex g) ->
  unshadowed (typesDB g) ->
  Js.step (withoutProto g) entry = Some g' -> plain entry.
Proof.
  destruct entry as [n d]. intros Hext Hfile Htypes. simpl.
  destruct (Js.pushAll (extensionIndex g) _ _) as [ix1|] eqn:H1; [|done].
  destruct (Js.pushAll (filenameIndex g) _ _) as [ix2|] eqn:H2; [|done].
  destruct (Js.pushType (typesDB g) _ _) as [t3|] eqn:H3; [|done].
  intros _. unfold plain, namesRead. simpl.
  apply Forall_app. split; [exact (pushAll_js_some _ _ _ _ Hext H1)|].
  apply Forall_app. split; [exact (pushAll_js_some _ _ _ _ Hfile H2)|].
  apply Forall_singleton. exact (pushType_js_some _ _ _ _ Htypes H3).
Qed.

Lemma typesDB_keys ds c :
  is_Some (typesDB (generateJSONs ds) !! c) -> recognized c = true.
Proof.
  unfold generateJSONs. destruct (recognized c) eqn:Hc; [done|].
  rewrite typesDB_unrecognized; [by intros [? ?]|].
  by rewrite typesDB_initial, Hc.
Qed.

Lemma unshadowed_generate ds :
  Forall plain ds ->
  unshadowed (extensionIndex (generateJSONs ds))
  /\ unshadowed (filenameIndex (generateJSONs ds))
  /\ unshadowed (typesDB (generateJSONs ds)).
Proof.
  intros Hds. split; [|split].
  - induction ds as [|[n d] ds IH] using rev_ind.
    + intros k [? Hk]. cbn in Hk. by rewrite lookup_empty in Hk.
    + apply Forall_app in Hds as [Hds Hd]. rewrite Forall_singleton in Hd.
      rewrite generate_snoc. simpl. apply unshadowed_pushAll; [|by apply IH].
      unfold plain, namesRead in Hd. simpl in Hd.
      by apply Forall_app in Hd as [? _].
  - induction ds as [|[n d] ds IH] using rev_ind.
    + intros k [? Hk]. cbn in Hk. by rewrite lookup_empty in Hk.
    + apply Forall_app in Hds as [Hds Hd]. rewrite Forall_singleton in Hd.
      rewrite generate_snoc. simpl. apply unshadowed_pushAll; [|by apply IH].
      unfold plain, namesRead in Hd. simpl in Hd.
      apply Forall_app in Hd as [_ Hd]. by apply Forall_app in Hd as [? _].
  - intros c Hc. by apply inherited_recognized, (typesDB_keys ds).
Qed.

Lemma generate_js_snoc ds entry :
  Js.generateJSONs (ds ++ [entry]) = g ← Js.generateJSONs ds; Js.step g entry.
Proof. unfold Js.generateJSONs. by rewrite foldl_snoc. Qed.

Lemma generate_js_plain ds :
  Forall plain ds -> Js.generateJSONs ds = Some (withoutProto (generateJSONs ds)).
Proof.
  induction ds as [|entry ds IH] using rev_ind; intros Hds.
  - unfold Js.generateJSONs, generateJSONs, withoutProto. simpl.
    by rewrite delete_empty.
  - apply Forall_app in Hds as [Hds Hentry]. rewrite Forall_singleton in Hentry.
    rewrite generate_js_snoc, IH, generate_snoc by done. simpl.
    by apply step_js_plain.
Qed.

Lemma generate_js_some ds g :
  Js.generateJSONs ds = Some g -> Forall plain ds.
Proof.
  revert g. induction ds as [|entry ds IH] using rev_ind; intros g; [by constructor|].
  rewrite generate_js_snoc.
  destruct (Js.generateJSONs ds) as [g0|] eqn:Hg0; [|done]. simpl.
  pose proof (IH g0 eq_refl) as Hds.
  rewrite (generate_js_plain ds Hds) in Hg0. injection Hg0 as <-.
  destruct (unshadowed_generate ds Hds) as (Hext & Hfile & Htypes).
  intros Hstep. apply Forall_app. split; [done|].
  apply Forall_singleton. by eapply step_js_some.
Qed.

Lemma generate_js_own ds g :
  Js.generateJSONs ds = Some g -> g = withoutProto (generateJSONs ds).
Proof.
  intros Hg. pose proof (generate_js_some ds g Hg) as Hds.
  rewrite (generate_js_plain ds Hds) in Hg. by injection Hg.
Qed.

Lemma languagesDB_js ds g k :
  Js.generateJSONs ds = Some g ->
  languagesDB g !! k =
  if decide (k = "__proto__"%string) then None
  else languagesDB (generateJSONs ds) !! k.
Proof.
  intros ->%generate_js_own. simpl.
  destruct (decide (k = "__proto__"%string)) as [->|Hne].
  - apply lookup_delete_eq.
  - by apply lookup_delete_ne.
Qed.

Lemma generate_js_same ds g :
  Js.generateJSONs ds = Some g -> "__proto__"%string ∉ keyOf <$> ds ->
  g = generateJSONs ds.
Proof.
  intros ->%generate_js_own Hproto. unfold withoutProto.
  rewrite delete_id; [by destruct (generateJSONs ds)|].
  unfold generateJSONs. apply languagesDB_none. split; [|done].
  cbn. apply lookup_empty.
Qed.

End JsBuilder.

(** ** The resolver of module [Js] against the own-property resolver *)

Section JsResolver.

Context (languagesData : LanguagesMap).

Lemma mismatch_own f r : Js.mismatch f (Js.Own r) = mismatch f r.
Proof. by destruct f. Qed.

Lemma contribution_own f key :
  is_Some (languagesData !! key) \/ Js.inherited key = None ->
  contribution languagesData f key = Some <$> survivor languagesData f key.
Proof.
  unfold contribution, survivor, Js.get.
  destruct (languagesData !! key) as [r|] eqn:Hkey.
  - intros _. rewrite mismatch_own. by destruct (mismatch f r).
  - intros [[? ?]| ->]; done.
Qed.

Lemma omap_contribution_own f keys :
  Forall (fun key => is_Some (languagesData !! key) \/ Js.inherited key = None)
    keys ->
  omap (contribution languagesData f) keys
  = Some <$> omap (survivor languagesData f) keys.
Proof.
  induction 1 as [|key keys Hkey _ IH]; [done|]. csimpl.
  rewrite contribution_own, IH by done.
  by destruct (survivor languagesData f key).
Qed.

Lemma loop_js f prefix keys acc :
  foldl (Js.visit languagesData f (Js.Own (prefix ++ keys))) acc
    (seq (length prefix) (length keys))
  = acc ++ omap (contribution languagesData f) keys.
Proof.
  revert prefix acc. induction keys as [|key keys IH]; intros prefix acc.
  - simpl. by rewrite app_nil_r.
  - cbn [length seq foldl].
    replace (prefix ++ key :: keys) with ((prefix ++ [key]) ++ keys)
      by (by rewrite <- app_assoc).
    replace (S (length prefix)) with (length (prefix ++ [key]))
      by (rewrite length_app; simpl; lia).
    rewrite IH. unfold Js.visit at 1. cbn [Js.element].
    assert (((prefix ++ [key]) ++ keys) !! length prefix = Some key) as ->
      by (rewrite <- app_assoc; by apply list_lookup_middle).
    cbn [Js.propertyKey default]. csimpl. unfold contribution.
    destruct (Js.get languagesData key) as [lang|]; [|done].
    destruct (Js.mismatch f lang); [done|]. by rewrite <- app_assoc.
Qed.

Lemma getLanguageByFileName_js_own extensionsData filenamesData p f :
  Js.inherited (getBasename p) = None ->
  Js.getLanguageByFileName languagesData extensionsData filenamesData p f
  = match omap (contribution languagesData f)
            (candidateKeys extensionsData filenamesData p) with
    | [] => None
    | results => Some results
    end.
Proof.
  intros Hbase. unfold Js.getLanguageByFileName.
  rewrite (get_plain filenamesData) by done.
  rewrite (get_plain extensionsData) by apply inherited_extension.
  assert (match Js.Own <$> filenamesData !! getBasename p with
          | Some found => found
          | None =>
              if truthy (getExtension p None) then
                match Js.Own <$> extensionsData !! getExtension p None with
                | Some found => found
                | None => Js.Own []
                end
              else Js.Own []
          end = Js.Own (candidateKeys extensionsData filenamesData p)) as ->.
  { unfold candidateKeys. destruct (filenamesData !! getBasename p); [done|].
    simpl. destruct (truthy _); [|done]. by destruct (extensionsData !! _). }
  cbn [Js.lengthOf].
  destruct (candidateKeys extensionsData filenamesData p) as [|key keys] eqn:Hks;
    [done|].
  assert (foldl (Js.visit languagesData f (Js.Own (key :: keys))) []
            (seq 0 (S (length keys)))
          = omap (contribution languagesData f) (key :: keys)) as Hloop
    by exact (loop_js f [] (key :: keys) []).
  cbn [length default]. unfold id. rewrite Hloop.
  by destruct (omap _ (key :: keys)).
Qed.

(** On a path whose basename is no member of [Object.prototype] and over
    candidate keys that are stored or no such member either, the two
    readings of [getLanguageByFileName] agree. *)
Lemma getLanguageByFileName_agrees extensionsData filenamesData p f :
  Js.inherited (getBasename p) = None ->
  Forall (fun key => is_Some (languagesData !! key) \/ Js.inherited key = None)
    (candidateKeys extensionsData filenamesData p) ->
  Js.getLanguageByFileName languagesData extensionsData filenamesData p f
  = allStrings
      (getLanguageByFileName languagesData extensionsData filenamesData p f).
Proof.
  intros Hbase Hkeys.
  rewrite getLanguageByFileName_js_own, getLanguageByFileName_resolve by done.
  rewrite resolve_omap, omap_contribution_own by done.
  by destruct (omap _ _).
Qed.

End JsResolver.

Lemma candidateKeys_stored ds p :
  Forall (fun key => is_Some (languagesDB (generateJSONs ds) !! key))
    (candidateKeys (extensionIndex (generateJSONs ds))
       (filenameIndex (generateJSONs ds)) p).
Proof.
  destruct (consistent_generate ds) as [Hext Hfile]. unfold candidateKeys.
  destruct (filenameIndex (generateJSONs ds) !! getBasename p) as [ks|] eqn:Hks;
    [by apply (Hfile _ _ Hks)|].
  destruct (truthy _); [|constructor].
  destruct (extensionIndex (generateJSONs ds) !! getExtension p None) as [ks|] eqn:He;
    [by apply (Hext _ _ He) | constructor].
Qed.

Lemma lookupFile_agrees ds g p f :
  Js.generateJSONs ds = Some g ->
  "__proto__"%string ∉ keyOf <$> ds ->
  Js.inherited (getBasename p) = None ->
  Js.lookupFile g p f = allStrings (lookupFile (generateJSONs ds) p f).
Proof.
  intros Hg Hproto Hbase. rewrite (generate_js_same ds g Hg Hproto).
  apply getLanguageByFileName_agrees; [done|].
  eapply Forall_impl; [apply candidateKeys_stored|]. by left.
Qed.

(** ** The claims that depend on property lookup *)

(** C6, as stated, fails in two ways.  When two names share a lowercased
    key, both claimants of [.x] resolve to the record written last, and
    its name is returned twice.  And an extension with two dots is never
    the extension of a basename: for [f.d.ts], claimed as [.d.ts] by two
    languages, the key looked up is [.ts] and nothing is found. *)
Lemma ambiguous_extension_fails :
  claimants ".x" colliding = ["FOO"; "Foo"]%string
  /\ (fun g => Js.lookupFile g "f.x" None) <$> Js.generateJSONs colliding
     = Some (Some [Some "Foo"; Some "Foo"]%string)
  /\ claimants ".d.ts" twoDot = ["Alpha"; "Beta"]%string
  /\ (fun g => filenameIndex g !! "f.d.ts"%string) <$> Js.generateJSONs twoDot
     = Some None
  /\ ("f" +:+ ".d.ts")%string = "f.d.ts"%string
  /\ getExtension "f.d.ts" None = ".ts"%string
  /\ (fun g => Js.lookupFile g "f.d.ts" None) <$> Js.generateJSONs twoDot
     = Some None.
Proof. repeat split; vm_compute; reflexivity. Qed.

(** C6, amended. On a completed build of a dataset in which no two names
    share a lowercased key and none has the key [__proto__], for a
    non-empty extension [e] claimed by two or more languages and a path
    whose extension is [e] and whose basename is no exact file name,
    [getLanguageByFileName] without a filter returns the display names of
    the claiming languages in dataset order (once per listing of [e]). *)
Theorem ambiguous_extension_resolves_in_order
    (ds : LinguistYaml) (g : Generated) (e p : string) :
  Js.generateJSONs ds = Some g ->
  NoDup (keyOf <$> ds) ->
  "__proto__"%string ∉ keyOf <$> ds ->
  filenameIndex g !! getBasename p = None ->
  getExtension p None = e ->
  e <> EmptyString ->
  (2 <= length (claimants e ds))%nat ->
  Js.lookupFile g p None = Some (Some <$> claimants e ds).
Proof.
  intros Hg Hnd Hproto Hfile He Hne Htwo.
  rewrite (lookupFile_agrees ds g p None Hg Hproto)
    by (apply inherited_basename; congruence).
  rewrite (generate_js_same ds g Hg Hproto) in Hfile.
  by rewrite (ambiguous_extension_in_dataset_order ds e p).
Qed.

Lemma ambiguous_extension_resolves_in_order_witness :
  Js.lookupFile (generateJSONs sample) "a\b/lib.rs" None
  = Some (Some <$> claimants ".rs" sample)
  /\ claimants ".rs" sample = ["RenderScript"; "Rust"; "XML"]%string.
Proof.
  split; [|reflexivity].
  apply (ambiguous_extension_resolves_in_order sample (generateJSONs sample)
           ".rs" "a\b/lib.rs").
  - vm_compute. reflexivity.
  - by_evaluation.
  - by_evaluation.
  - vm_compute. reflexivity.
  - vm_compute. reflexivity.
  - discriminate.
  - vm_compute. lia.
Defined.




Example getLanguagesByType_sample :
  Js.lookupType (generateJSONs sample) "data" = Js.Own ["Ignore List"; "XML"]%string
  /\ Js.lookupType (generateJSONs sample) "aliens" = Js.Own []
  /\ Js.lookupType (generateJSONs sample) "toString"
     = Js.Inherited (Js.Builtin "toString" 0).
Proof. repeat split; vm_compute; reflexivity. Qed.

(** C9 fails on a language named [__proto__].  The assignment that
    should store its record runs the prototype setter and stores
    nothing, while its key is still pushed to the entry of every
    extension it lists: the build completes with [.p] listing the key
    [__proto__], which the record store lacks.  A lookup by file name
    then reads the inherited member at that key and returns [undefined]
    in place of a name. *)
Theorem proto_key_dangles :
  exists g,
    Js.generateJSONs protoNamed = Some g
    /\ extensionIndex g !! ".p"%string = Some ["__proto__"; "b"]%string
    /\ languagesDB g !! "__proto__"%string = None
    /\ Js.lookupName g "__proto__" = Some (Js.Inherited Js.ObjectPrototype)
    /\ Js.lookupFile g "a.p" None = Some [None; Some "B"%string].
Proof.
  eexists. split; [vm_compute; reflexivity|].
  repeat split; vm_compute; reflexivity.
Qed.

(** ** Properties of a build as JavaScript runs it *)

(** The loop completes exactly when no entry of the dataset lists an
    extension or a file name, or has a type, that names a member of
    [Object.prototype]; otherwise it throws and nothing is written. *)
Theorem build_completes_iff (ds : LinguistYaml) :
  is_Some (Js.generateJSONs ds) <-> Forall plain ds.
Proof.
  split.
  - intros [g Hg]. by apply (generate_js_some ds g).
  - intros Hds. rewrite (generate_js_plain ds Hds). eauto.
Qed.

Example build_throws :
  Js.generateJSONs
    (sample ++ [("Odd"%string,
                 LinguistDef.mk "data" None (Some ["constructor"]%string) None)])
    = None
  /\ Js.generateJSONs
       [("Odd"%string, LinguistDef.mk "toString" None None None)] = None
  /\ is_Some (Js.generateJSONs sample)
  /\ is_Some (Js.generateJSONs
                [("constructor"%string, LinguistDef.mk "data" (Some [".c"]%string) None None)]).
Proof. repeat split; vm_compute; eauto. Qed.

(** On a completed build, every key stored in an entry of the extension
    index or of the filename index is a key of the record store, unless
    it is the key [__proto__]. *)
Theorem completed_build_keys_stored
    (ds : LinguistYaml) (g : Generated) (id k : string) (ks : list string) :
  Js.generateJSONs ds = Some g ->
  extensionIndex g !! id = Some ks \/ filenameIndex g !! id = Some ks ->
  k ∈ ks ->
  k <> "__proto__"%string ->
  is_Some (languagesDB g !! k).
Proof.
  intros Hg Hid Hk Hproto. rewrite (languagesDB_js ds g k Hg).
  destruct (decide (k = "__proto__"%string)); [done|].
  rewrite (generate_js_own ds g Hg) in Hid. cbn in Hid.
  destruct (consistent_generate ds) as [Hext Hfile].
  destruct Hid as [Hid|Hid];
    [apply Hext in Hid | apply Hfile in Hid];
    rewrite Forall_forall in Hid; by apply Hid.
Qed.

Lemma completed_build_keys_stored_witness :
  is_Some (languagesDB (withoutProto (generateJSONs protoNamed)) !! "b"%string).
Proof.
  apply (completed_build_keys_stored protoNamed
           (withoutProto (generateJSONs protoNamed)) ".p" "b"
           ["__proto__"; "b"]%string).
  - vm_compute. reflexivity.
  - left. vm_compute. reflexivity.
  - by_evaluation.
  - discriminate.
Defined.

(** On a completed build, each reverse index has an entry at [id]
    exactly when some language of the dataset lists [id], and the entry
    then holds one lowercased key per listing, in dataset order; no entry
    is empty. *)
Theorem completed_build_reverse_index
    (ds : LinguistYaml) (g : Generated) (id : string) :
  Js.generateJSONs ds = Some g ->
  extensionIndex g !! id = expectedEntry LinguistDef.extensions id ds
  /\ filenameIndex g !! id = expectedEntry LinguistDef.filenames id ds.
Proof.
  intros ->%generate_js_own. cbn [extensionIndex filenameIndex withoutProto].
  apply reverse_index_entries.
Qed.

Lemma completed_build_reverse_index_witness :
  extensionIndex (generateJSONs sample) !! ".rs"%string
    = expectedEntry LinguistDef.extensions ".rs" sample
  /\ filenameIndex (generateJSONs sample) !! ".rs"%string
    = expectedEntry LinguistDef.filenames ".rs" sample.
Proof.
  apply (completed_build_reverse_index sample (generateJSONs sample) ".rs").
  vm_compute. reflexivity.
Defined.

Example reverse_index_sample :
  expectedEntry LinguistDef.extensions ".rs" sample
    = Some ["renderscript"; "rust"; "xml"]%string
  /\ expectedEntry LinguistDef.filenames ".rs" sample = None.
Proof. split; reflexivity. Qed.

(** ** Properties of name lookup over a completed build *)

(** [getLanguage] returns [null] exactly when the lowercased query is
    the key of no name of the dataset and names no member of
    [Object.prototype]. *)
Theorem getLanguage_null_iff (ds : LinguistYaml) (g : Generated) (n : string) :
  Js.generateJSONs ds = Some g ->
  Js.lookupName g n = None
  <-> (toLowerCase n ∉ keyOf <$> ds) /\ Js.inherited (toLowerCase n) = None.
Proof.
  intros Hg. unfold Js.lookupName, Js.getLanguage, Js.get.
  rewrite (languagesDB_js ds g _ Hg).
  destruct (decide (toLowerCase n = "__proto__"%string)) as [->|Hne].
  - split; [done | by intros [_ ?]].
  - destruct (languagesDB (generateJSONs ds) !! toLowerCase n) as [r|] eqn:Hr.
    + split; [done|]. intros [Hkey _]. exfalso.
      assert (languagesDB (generateJSONs ds) !! toLowerCase n = None) as Hnone
        by (apply languagesDB_none; split; [apply lookup_empty | done]).
      congruence.
    + apply languagesDB_none in Hr as [_ Hkey].
      destruct (Js.inherited (toLowerCase n)); split; try done; by intros [_ ?].
Qed.

Lemma getLanguage_null_iff_witness :
  Js.lookupName (generateJSONs sample) "FakeLang123" = None
  <-> (toLowerCase "FakeLang123" ∉ keyOf <$> sample)
      /\ Js.inherited (toLowerCase "FakeLang123") = None.
Proof.
  apply (getLanguage_null_iff sample (generateJSONs sample) "FakeLang123").
  vm_compute. reflexivity.
Defined.

Example getLanguage_sample :
  Js.lookupName (generateJSONs sample) "" = None
  /\ Js.lookupName (generateJSONs sample) "FakeLang123" = None
  /\ Js.lookupName (generateJSONs sample) "rust" = Some (Js.Own (record "Rust" rust))
  /\ Js.lookupName (generateJSONs sample) "Constructor"
     = Some (Js.Inherited (Js.Builtin "Object" 1))
  /\ Js.lookupName (generateJSONs sample) "toString" = None
  /\ toLowerCase (String "209" EmptyString) = String "241" EmptyString.
Proof. repeat split; vm_compute; reflexivity. Qed.

(** What [getLanguage] returns other than [null] is the record of an
    entry of the dataset, carrying that entry's display name, whose
    lowercased form is the lowercased query; or else it is the member of
    [Object.prototype] that the lowercased query names. *)
Theorem getLanguage_value_origin
    (ds : LinguistYaml) (g : Generated) (n : string) (v : Js.Value Language) :
  Js.generateJSONs ds = Some g ->
  Js.lookupName g n = Some v ->
  match v with
  | Js.Own r =>
      exists d, (name r, d) ∈ ds
                /\ r = record (name r) d
                /\ toLowerCase (name r) = toLowerCase n
  | Js.Inherited m => Js.inherited (toLowerCase n) = Some m
  end.
Proof.
  intros Hg. unfold Js.lookupName, Js.getLanguage, Js.get.
  rewrite (languagesDB_js ds g _ Hg).
  destruct (decide (toLowerCase n = "__proto__"%string)) as [Hproto|Hne].
  - destruct (Js.inherited (toLowerCase n)); [|done]. by intros [= <-].
  - destruct (languagesDB (generateJSONs ds) !! toLowerCase n) as [r|] eqn:Hr.
    + intros [= <-]. by apply (getLanguage_returns_dataset_entry ds n r).
    + destruct (Js.inherited (toLowerCase n)); [|done]. by intros [= <-].
Qed.

Lemma getLanguage_value_origin_witness :
  exists d, (name (record "Rust" rust), d) ∈ sample
            /\ record "Rust" rust = record (name (record "Rust" rust)) d
            /\ toLowerCase (name (record "Rust" rust)) = toLowerCase "RUST".
Proof.
  apply (getLanguage_value_origin sample (generateJSONs sample) "RUST"
           (Js.Own (record "Rust" rust))); vm_compute; reflexivity.
Defined.

(** ** What a lookup by file name returns over a completed build *)

(** On a completed build of a dataset in which no two names share a
    lowercased key and none has the key [__proto__], when the basename of
    the path names no member of [Object.prototype], every value the
    lookup by file name returns is the display name of a record that
    [getLanguage] finds under that name and that itself lists the
    basename as a file name or the extension as an extension. *)
Theorem returned_names_are_listing_records
    (ds : LinguistYaml) (g : Generated) (p : string) (f : option string)
    (names : list (option string)) (v : option string) :
  Js.generateJSONs ds = Some g ->
  NoDup (keyOf <$> ds) ->
  "__proto__"%string ∉ keyOf <$> ds ->
  Js.inherited (getBasename p) = None ->
  Js.lookupFile g p f = Some names ->
  v ∈ names ->
  exists r, v = Some (name r)
            /\ Js.lookupName g (name r) = Some (Js.Own r)
            /\ (getBasename p ∈ filenames r
                \/ getExtension p None ∈ extensions r).
Proof.
  intros Hg Hnd Hproto Hbase Hres Hv.
  rewrite (lookupFile_agrees ds g p f Hg Hproto Hbase) in Hres.
  rewrite (generate_js_same ds g Hg Hproto).
  destruct (lookupFile (generateJSONs ds) p f) as [found|] eqn:Hfound; [|done].
  injection Hres as <-. apply list_elem_of_fmap in Hv as (n & -> & Hn).
  destruct (returned_names_list_the_file ds p n f found Hnd Hfound Hn)
    as (r & Hr & <- & Hlists).
  exists r. repeat split; [|done].
  unfold Js.lookupName, Js.getLanguage. by apply get_own.
Qed.

Lemma returned_names_are_listing_records_witness :
  exists r, Some "XML"%string = Some (name r)
            /\ Js.lookupName (generateJSONs sample) (name r) = Some (Js.Own r)
            /\ (getBasename "src/lib.rs" ∈ filenames r
                \/ getExtension "src/lib.rs" None ∈ extensions r).
Proof.
  apply (returned_names_are_listing_records sample (generateJSONs sample)
           "src/lib.rs" None
           [Some "RenderScript"; Some "Rust"; Some "XML"]%string).
  - vm_compute. reflexivity.
  - by_evaluation.
  - by_evaluation.
  - vm_compute. reflexivity.
  - vm_compute. reflexivity.
  - by_evaluation.
Defined.

(** The hypothesis on the basename is needed: a basename that names a
    function of [Object.prototype] makes that function the candidate
    list, whose elements are [undefined], and the language stored under
    the key [undefined] is returned. *)
Example inherited_basename_resolves_undefined :
  (fun g => Js.lookupFile g "lib/hasOwnProperty" None)
    <$> Js.generateJSONs
          [("Undefined"%string, LinguistDef.mk "data" None None None)]
  = Some (Some [Some "Undefined"%string]).
Proof. vm_compute. reflexivity. Qed.

(** On a completed build of a dataset in which no two names share a
    lowercased key, an entry whose key is not [__proto__] and whose type
    is none of the four recognised categories is kept in the record
    store, type and all, and its name is in no list [getLanguagesByType]
    returns. *)
Theorem unrecognized_category_stored_unlisted
    (ds : LinguistYaml) (g : Generated) (n c : string) (d : LinguistDef.t)
    (listed : list string) :
  Js.generateJSONs ds = Some g ->
  NoDup (keyOf <$> ds) ->
  (n, d) ∈ ds ->
  toLowerCase n <> "__proto__"%string ->
  recognized (LinguistDef.type d) = false ->
  Js.lookupName g n = Some (Js.Own (record n d))
  /\ (Js.lookupType g c = Js.Own listed -> n ∉ listed).
Proof.
  intros Hg Hnd Hin Hproto Hd. split.
  - unfold Js.lookupName, Js.getLanguage. apply get_own.
    rewrite (languagesDB_js ds g _ Hg).
    destruct (decide (toLowerCase n = "__proto__"%string)); [done|].
    apply (languagesDB_unique ds (n, d) Hnd Hin).
  - rewrite (generate_js_own ds g Hg). unfold Js.lookupType, Js.getLanguagesByType.
    cbn [typesDB withoutProto]. unfold Js.get.
    destruct (typesDB (generateJSONs ds) !! c) as [names|] eqn:Hc.
    + simpl. intros [= <-].
      assert (lookupType (generateJSONs ds) c = names) as Hnames
        by (unfold lookupType, getLanguagesByType; by rewrite Hc).
      rewrite lookupType_generate in Hnames.
      destruct (recognized c) eqn:Hrec; subst names; [|apply not_elem_of_nil].
      intros (d' & Hin' & <-)%namesOfType_named.
      assert (d = d') as <-
        by (apply (unique_definition ds n); [by apply unique_keys_unique_names | done | done]).
      congruence.
    + destruct (Js.inherited c); simpl; [done|].
      intros [= <-]. apply not_elem_of_nil.
Qed.

Lemma unrecognized_category_stored_unlisted_witness :
  let odd := LinguistDef.mk "nil" (Some [".nil"]%string) None None in
  let ds := sample ++ [("Nil"%string, odd)] in
  Js.lookupName (generateJSONs ds) "Nil" = Some (Js.Own (record "Nil" odd))
  /\ (Js.lookupType (generateJSONs ds) "nil" = Js.Own [] -> "Nil"%string ∉ @nil string).
Proof.
  intros odd ds. subst odd ds.
  apply (unrecognized_category_stored_unlisted
           (sample ++ [("Nil"%string, LinguistDef.mk "nil" (Some [".nil"]%string) None None)])
           (generateJSONs
              (sample ++ [("Nil"%string, LinguistDef.mk "nil" (Some [".nil"]%string) None None)]))
           "Nil" "nil" (LinguistDef.mk "nil" (Some [".nil"]%string) None None) []).
  - vm_compute. reflexivity.
  - by_evaluation.
  - apply elem_of_app. right. by left.
  - discriminate.
  - reflexivity.
Defined.

(** On a completed build, when two entries of the dataset share a
    lowercased key and no later entry has it, the record store holds the
    record of the later of the two at that key; unless the key is
    [__proto__], for which the store holds nothing. *)
Theorem completed_build_last_write
    (ds1 ds2 ds3 : LinguistYaml) (n1 n2 : string) (d1 d2 : LinguistDef.t)
    (g : Generated) :
  Js.generateJSONs (ds1 ++ (n1, d1) :: ds2 ++ (n2, d2) :: ds3) = Some g ->
  toLowerCase n1 = toLowerCase n2 ->
  Forall (fun later => toLowerCase later.1 <> toLowerCase n2) ds3 ->
  languagesDB g !! toLowerCase n1
  = if decide (toLowerCase n1 = "__proto__"%string) then None
    else Some (record n2 d2).
Proof.
  intros Hg Hkey Hlater. rewrite (languagesDB_js _ g _ Hg).
  destruct (decide (toLowerCase n1 = "__proto__"%string)); [done|].
  rewrite Hkey.
  change (ds1 ++ (n1, d1) :: ds2 ++ (n2, d2) :: ds3)
    with (ds1 ++ ((n1, d1) :: ds2) ++ (n2, d2) :: ds3).
  rewrite app_assoc.
  apply (languagesDB_last (ds1 ++ (n1, d1) :: ds2) (n2, d2) ds3 initial Hlater).
Qed.

Lemma completed_build_last_write_witness :
  languagesDB (generateJSONs colliding) !! toLowerCase "FOO"
  = if decide (toLowerCase "FOO" = "__proto__"%string) then None
    else Some (record "Foo" mixedFoo).
Proof.
  apply (completed_build_last_write [] [] [] "FOO" "Foo" upperFoo mixedFoo
           (generateJSONs colliding)).
  - vm_compute. reflexivity.
  - reflexivity.
  - constructor.
Defined.

Example proto_keys_store_nothing :
  (fun g => languagesDB g !! "__proto__"%string)
    <$> Js.generateJSONs [("__PROTO__"%string, upperFoo); ("__proto__"%string, mixedFoo)]
  = Some None.
Proof. vm_compute. reflexivity. Qed.
